(** * Dead-worker cleaner and record store of open-service-broker-azure

    Shallow embedding of
      - pkg/async/redis/cleaner.go  (defaultClean, defaultCleanWorkerQueue)
      - pkg/storage/store.go        (GetInstance, DeleteInstance, GetBinding,
                                     DeleteBinding and their key helpers)
    over a model of the Redis commands the two files issue. *)

From stdpp Require Import gmap strings list fin_maps.

Local Open Scope string_scope.
Local Open Scope list_scope.
#[local] Set Warnings "-clear-no-such-hyp".

(** ** Go errors *)

(** The error values the two files can see or build.  [RedisNil] is the
    sentinel [redis.Nil]; [StoreErr] is any other error handed back by the
    client (transport fault, WRONGTYPE, ...); [CtxErr] is [ctx.Err()] of a
    context that is done; [Errorf] is a value built with [fmt.Errorf]. *)
Inductive error : Type :=
| RedisNil
| StoreErr (msg : string)
| CtxErr
| Errorf (msg : string).

(** Go's [error] interface value: [None] is [nil]. *)
Definition goerror : Type := option error.

(** The text [%s] prints for an error. *)
Definition errString (e : error) : string :=
  match e with
  | RedisNil => "redis: nil"
  | StoreErr m => m
  | CtxErr => "context canceled"
  | Errorf m => m
  end.

Definition dquote : string := String (Ascii.ascii_of_nat 34) EmptyString.

(** ** The Redis keyspace *)

Inductive value : Type :=
| VStr (v : string)
| VList (l : list string)
| VSet (s : gset string).

Inductive cmd : Type :=
| SMEMBERS (key : string)
| GET (key : string)
| RPOPLPUSH (src dst : string)
| SREM (key member : string)
| DEL (key : string).

(** What the process can observe of its environment: the keyspace, the
    replies the client is going to override with an error ([Some e] at
    position [i] makes the [i]-th command fail with [e] and leaves the
    keyspace alone), the number of polls of [ctx.Done()] that still find the
    context open ([None]: it is never cancelled), and the commands issued so
    far with the [Err()] of each reply, newest first. *)
Record World : Type := mkWorld {
  db : gmap string value;
  script : list (option error);
  ctx : option nat;
  trace : list (cmd * goerror)
}.

Inductive reply (A : Type) : Type :=
| Ok (a : A)
| Err (e : error).
Arguments Ok {A} a.
Arguments Err {A} e.

(** [Cmd.Err()] *)
Definition replyErr {A : Type} (r : reply A) : goerror :=
  match r with
  | Ok _ => None
  | Err e => Some e
  end.

Definition wrongtype : error :=
  StoreErr "WRONGTYPE Operation against a key holding the wrong kind of value".

(** The list held at a key, head first; an absent key is the empty list. *)
Definition queue (d : gmap string value) (k : string) : list string :=
  match d !! k with
  | Some (VList l) => l
  | _ => []
  end.

(** The set held at a key; an absent key is the empty set. *)
Definition members (d : gmap string value) (k : string) : gset string :=
  match d !! k with
  | Some (VSet s) => s
  | _ => ∅
  end.

(** Redis never keeps an empty list or an empty set: the key goes away. *)
Definition store_list (k : string) (l : list string) (d : gmap string value)
  : gmap string value :=
  match l with
  | [] => delete k d
  | _ :: _ => <[k := VList l]> d
  end.

Definition store_set (k : string) (s : gset string) (d : gmap string value)
  : gmap string value :=
  if decide (s = ∅) then delete k d else <[k := VSet s]> d.

Definition exec_smembers (k : string) (d : gmap string value)
  : reply (list string) * gmap string value :=
  match d !! k with
  | None => (Ok [], d)
  | Some (VSet s) => (Ok (elements s), d)
  | Some _ => (Err wrongtype, d)
  end.

Definition exec_get (k : string) (d : gmap string value)
  : reply string * gmap string value :=
  match d !! k with
  | None => (Err RedisNil, d)
  | Some (VStr v) => (Ok v, d)
  | Some _ => (Err wrongtype, d)
  end.

(** RPOPLPUSH: pop the tail of [src], push it on the head of [dst], in one
    command.  With [src = dst] this rotates the list. *)
Definition exec_rpoplpush (src dst : string) (d : gmap string value)
  : reply string * gmap string value :=
  match d !! src with
  | None => (Err RedisNil, d)
  | Some (VList l) =>
      match last l with
      | None => (Err RedisNil, d)
      | Some x =>
          match d !! dst with
          | Some (VStr _) | Some (VSet _) => (Err wrongtype, d)
          | _ =>
              let d1 := store_list src (removelast l) d in
              (Ok x, <[dst := VList (x :: queue d1 dst)]> d1)
          end
      end
  | Some _ => (Err wrongtype, d)
  end.

Definition exec_srem (k m : string) (d : gmap string value)
  : reply nat * gmap string value :=
  match d !! k with
  | None => (Ok 0, d)
  | Some (VSet s) =>
      if decide (m ∈ s) then (Ok 1, store_set k (s ∖ {[m]}) d) else (Ok 0, d)
  | Some _ => (Err wrongtype, d)
  end.

Definition exec_del (k : string) (d : gmap string value)
  : reply nat * gmap string value :=
  match d !! k with
  | None => (Ok 0, d)
  | Some _ => (Ok 1, delete k d)
  end.

(** One round trip of the client. *)
Definition call {A : Type} (c : cmd)
    (exec : gmap string value → reply A * gmap string value) (w : World)
  : reply A * World :=
  match script w with
  | Some e :: s =>
      (Err e, mkWorld (db w) s (ctx w) ((c, Some e) :: trace w))
  | _ =>
      let r := exec (db w) in
      (r.1, mkWorld r.2 (tail (script w)) (ctx w) ((c, replyErr r.1) :: trace w))
  end.

Definition SMembers (k : string) : World → reply (list string) * World :=
  call (SMEMBERS k) (exec_smembers k).
Definition Get (k : string) : World → reply string * World :=
  call (GET k) (exec_get k).
Definition RPopLPush (src dst : string) : World → reply string * World :=
  call (RPOPLPUSH src dst) (exec_rpoplpush src dst).
Definition SRem (k m : string) : World → reply nat * World :=
  call (SREM k m) (exec_srem k m).
Definition Del (k : string) : World → reply nat * World :=
  call (DEL k) (exec_del k).

(** The [select] on [ctx.Done()] with a [default] branch: [true] when the
    context is done. *)
Definition ctxDone (w : World) : bool * World :=
  match ctx w with
  | None => (false, w)
  | Some 0 => (true, w)
  | Some (S n) => (false, mkWorld (db w) (script w) (Some n) (trace w))
  end.

(** The client never answers [redis.Nil] by itself where the keyspace says
    otherwise: no scripted reply is the sentinel. *)
Definition truthful (w : World) : Prop :=
  Forall (λ r, r ≠ Some RedisNil) (script w).

(** No reply is overridden at all. *)
Definition faultless (w : World) : Prop :=
  Forall (λ r, r = None) (script w).

(** ** pkg/async/redis/cleaner.go *)

(** Outcome of one pass through a loop body. *)
Inductive flow : Type :=
| Next
| Return (err : goerror).

(** [cleanWorkerQueueFn]; [None] when the call does not return. *)
Definition cleanWorkerQueueFn : Type :=
  string → string → string → World → option (goerror * World).

(** The two function-valued fields of [engine] that [defaultClean] calls. *)
Record engine : Type := mkEngine {
  cleanActiveTaskQueue : cleanWorkerQueueFn;
  cleanWatchedTaskQueue : cleanWorkerQueueFn
}.

(** Body of the [for] of [defaultCleanWorkerQueue]. *)
Definition cleanWorkerQueueIter (workerID sourceQueueName destinationQueueName : string)
    (w : World) : flow * World :=
  let (done, w1) := ctxDone w in
  if done then (Return (Some CtxErr), w1)
  else
    let (r, w2) := RPopLPush sourceQueueName destinationQueueName w1 in
    match replyErr r with
    | Some RedisNil => (Return None, w2)
    | Some err =>
        (Return (Some (Errorf
           ("error cleaning up after dead worker " +:+ dquote +:+ workerID +:+ dquote
            +:+ " queue " +:+ dquote +:+ sourceQueueName +:+ dquote +:+ ": "
            +:+ errString err))), w2)
    | None => (Next, w2)
    end.

Fixpoint defaultCleanWorkerQueue (fuel : nat)
    (workerID sourceQueueName destinationQueueName : string) (w : World)
  : option (goerror * World) :=
  match fuel with
  | 0 => None
  | S fuel' =>
      match cleanWorkerQueueIter workerID sourceQueueName destinationQueueName w with
      | (Return err, w') => Some (err, w')
      | (Next, w') =>
          defaultCleanWorkerQueue fuel' workerID sourceQueueName destinationQueueName w'
      end
  end.

(** Modelled from the spec: the constructor of [engine] is not among the
    sources; section 4.2 has the cleaner drain both queues with the drain
    operation of section 4.3, so both fields hold [defaultCleanWorkerQueue]. *)
Definition defaultEngine (fuel : nat) : engine :=
  mkEngine (defaultCleanWorkerQueue fuel) (defaultCleanWorkerQueue fuel).

Section Cleaner.

(** The key-naming helpers are declared elsewhere in the package. *)
Variable getHeartbeatKey : string → string.
Variable getActiveTaskQueueName : string → string.
Variable getWatchedTaskQueueName : string → string.

Variable e : engine.

(** Body of the [for ... range workerIDs] of [defaultClean]. *)
Definition cleanWorker (workerSetName pendingTaskQueueName deferredTaskQueueName : string)
    (workerID : string) (w : World) : option (flow * World) :=
  let (r, w1) := Get (getHeartbeatKey workerID) w in
  match replyErr r with
  | None =>
      let (done, w2) := ctxDone w1 in
      if done then Some (Return (Some CtxErr), w2) else Some (Next, w2)
  | Some RedisNil =>
      match cleanActiveTaskQueue e workerID
              (getActiveTaskQueueName workerID) pendingTaskQueueName w1 with
      | None => None
      | Some (Some err, w2) => Some (Return (Some err), w2)
      | Some (None, w2) =>
          match cleanWatchedTaskQueue e workerID
                  (getWatchedTaskQueueName workerID) deferredTaskQueueName w2 with
          | None => None
          | Some (Some err, w3) => Some (Return (Some err), w3)
          | Some (None, w3) =>
              let (r', w4) := SRem workerSetName workerID w3 in
              match replyErr r' with
              | None | Some RedisNil =>
                  let (done, w5) := ctxDone w4 in
                  if done then Some (Return (Some CtxErr), w5) else Some (Next, w5)
              | Some err =>
                  Some (Return (Some (Errorf
                    ("error removing dead worker " +:+ dquote +:+ workerID +:+ dquote
                     +:+ " from worker set: " +:+ errString err))), w4)
              end
          end
      end
  | Some err =>
      Some (Return (Some (Errorf
        ("error checking health of worker: " +:+ dquote +:+ workerID +:+ dquote
         +:+ ": " +:+ errString err))), w1)
  end.

(** The [for ... range] over the snapshot of the worker set. *)
Fixpoint cleanWorkers (workerSetName pendingTaskQueueName deferredTaskQueueName : string)
    (workerIDs : list string) (w : World) : option (goerror * World) :=
  match workerIDs with
  | [] => Some (None, w)
  | workerID :: rest =>
      match cleanWorker workerSetName pendingTaskQueueName deferredTaskQueueName
              workerID w with
      | None => None
      | Some (Return err, w') => Some (err, w')
      | Some (Next, w') =>
          cleanWorkers workerSetName pendingTaskQueueName deferredTaskQueueName rest w'
      end
  end.

Definition defaultClean (workerSetName pendingTaskQueueName deferredTaskQueueName : string)
    (w : World) : option (goerror * World) :=
  let (r, w1) := SMembers workerSetName w in
  match r with
  | Err RedisNil => Some (None, w1)
  | Err err => Some (Some (Errorf ("error retrieving workers: " +:+ errString err)), w1)
  | Ok workerIDs =>
      cleanWorkers workerSetName pendingTaskQueueName deferredTaskQueueName workerIDs w1
  end.

End Cleaner.

(** ** pkg/storage/store.go *)

(** The packages [service] and [crypto] are not among the sources; what
    store.go uses of them is taken as an interface. *)
Class ServicePkg : Type := {
  Codec : Type;
  Catalog : Type;
  Service : Type;
  Plan : Type;
  ServiceManager : Type;
  ProvisioningParameters : Type;
  UpdatingParameters : Type;
  InstanceDetails : Type;
  BindingParameters : Type;
  BindingDetails : Type;
  Instance : Type;
  Binding : Type;
  (** [service.Instance{}] and [service.Binding{}] *)
  zeroInstance : Instance;
  zeroBinding : Binding;
  (** the fields [ServiceID] and [PlanID], the assignments to [Service] and [Plan] *)
  Instance_ServiceID : Instance → string;
  Instance_PlanID : Instance → string;
  Instance_setService : Service → Instance → Instance;
  Instance_setPlan : Plan → Instance → Instance;
  Binding_ServiceID : Binding → string;
  (** [Catalog.GetService], [Service.GetPlan]: [None] is [ok == false] *)
  GetService : Catalog → string → option Service;
  GetPlan : Service → string → option Plan;
  GetServiceManager : Service → ServiceManager;
  GetEmptyProvisioningParameters : ServiceManager → ProvisioningParameters;
  GetEmptyUpdatingParameters : ServiceManager → UpdatingParameters;
  GetEmptyInstanceDetails : ServiceManager → InstanceDetails;
  GetEmptyBindingParameters : ServiceManager → BindingParameters;
  GetEmptyBindingDetails : ServiceManager → BindingDetails;
  (** the prototypes may be [nil] *)
  NewInstanceFromJSON :
    string → option ProvisioningParameters → option UpdatingParameters →
    option InstanceDetails → Codec → Instance * goerror;
  NewBindingFromJSON :
    string → option BindingParameters → option BindingDetails → Codec →
    Binding * goerror
}.

(** The fields of [store] next to the client, whose state is the [World]. *)
Record store `{ServicePkg} : Type := mkStore {
  catalog : Catalog;
  codec : Codec
}.

Definition getInstanceKey (instanceID : string) : string :=
  "instances:" +:+ instanceID.

Definition getBindingKey (bindingID : string) : string :=
  "bindings:" +:+ bindingID.

Definition GetInstance `{ServicePkg} (s : store) (instanceID : string) (w : World)
  : (Instance * bool * goerror) * World :=
  let key := getInstanceKey instanceID in
  let (strCmd, w1) := Get key w in
  match strCmd with
  | Err RedisNil => ((zeroInstance, false, None), w1)
  | Err err => ((zeroInstance, false, Some err), w1)
  | Ok bytes =>
      (* [strCmd.Bytes()] hands back the value; its error is that of the command *)
      let (instance, err) := NewInstanceFromJSON bytes None None None (codec s) in
      match err with
      | Some err => ((instance, false, Some err), w1)
      | None =>
          match GetService (catalog s) (Instance_ServiceID instance) with
          | None =>
              ((instance, false,
                Some (Errorf ("service not found in catalog for service ID " +:+ dquote
                              +:+ Instance_ServiceID instance +:+ dquote))), w1)
          | Some svc =>
              match GetPlan svc (Instance_PlanID instance) with
              | None =>
                  ((instance, false,
                    Some (Errorf ("plan not found for planID " +:+ dquote
                                  +:+ Instance_PlanID instance +:+ dquote
                                  +:+ " for service " +:+ dquote
                                  +:+ Instance_ServiceID instance +:+ dquote
                                  +:+ " in the catalog"))), w1)
              | Some plan =>
                  let serviceManager := GetServiceManager svc in
                  let (instance', err') :=
                    NewInstanceFromJSON bytes
                      (Some (GetEmptyProvisioningParameters serviceManager))
                      (Some (GetEmptyUpdatingParameters serviceManager))
                      (Some (GetEmptyInstanceDetails serviceManager))
                      (codec s) in
                  ((Instance_setPlan plan (Instance_setService svc instance'),
                    bool_decide (err' = None), err'), w1)
              end
          end
      end
  end.

Definition DeleteInstance (instanceID : string) (w : World)
  : (bool * goerror) * World :=
  let key := getInstanceKey instanceID in
  let (strCmd, w1) := Get key w in
  match replyErr strCmd with
  | Some RedisNil => ((false, None), w1)
  | Some err => ((false, Some err), w1)
  | None =>
      let (intCmd, w2) := Del key w1 in
      match replyErr intCmd with
      | Some err => ((false, Some err), w2)
      | None => ((true, None), w2)
      end
  end.

Definition GetBinding `{ServicePkg} (s : store) (bindingID : string) (w : World)
  : (Binding * bool * goerror) * World :=
  let key := getBindingKey bindingID in
  let (strCmd, w1) := Get key w in
  match strCmd with
  | Err RedisNil => ((zeroBinding, false, None), w1)
  | Err err => ((zeroBinding, false, Some err), w1)
  | Ok bytes =>
      let (binding, err) := NewBindingFromJSON bytes None None (codec s) in
      match err with
      | Some err => ((binding, false, Some err), w1)
      | None =>
          match GetService (catalog s) (Binding_ServiceID binding) with
          | None =>
              ((binding, false,
                Some (Errorf ("service not found in catalog for service ID " +:+ dquote
                              +:+ Binding_ServiceID binding +:+ dquote))), w1)
          | Some svc =>
              let serviceManager := GetServiceManager svc in
              let (binding', err') :=
                NewBindingFromJSON bytes
                  (Some (GetEmptyBindingParameters serviceManager))
                  (Some (GetEmptyBindingDetails serviceManager))
                  (codec s) in
              ((binding', bool_decide (err' = None), err'), w1)
          end
      end
  end.

Definition DeleteBinding (bindingID : string) (w : World)
  : (bool * goerror) * World :=
  let key := getBindingKey bindingID in
  let (strCmd, w1) := Get key w in
  match replyErr strCmd with
  | Some RedisNil => ((false, None), w1)
  | Some err => ((false, Some err), w1)
  | None =>
      let (intCmd, w2) := Del key w1 in
      match replyErr intCmd with
      | Some err => ((false, Some err), w2)
      | None => ((true, None), w2)
      end
  end.

(** The next command is answered by the keyspace, not by an override. *)
Definition answers (w : World) : Prop :=
  ∀ e, head (script w) ≠ Some (Some e).

(** ** Vocabulary of the statements *)

(** A key that holds a list or nothing: RPOPLPUSH accepts it on either side. *)
Definition is_queue (d : gmap string value) (k : string) : Prop :=
  ∀ v, d !! k = Some v → ∃ l, v = VList l.

(** A key that holds a set or nothing. *)
Definition is_set (d : gmap string value) (k : string) : Prop :=
  ∀ v, d !! k = Some v → ∃ s, v = VSet s.

(** How a keyspace may differ after some moves and removals: string keys
    are frozen, sets only lose members named by [rem], a list that is not
    among the sources [srcs] only grows at its head and one that is not
    among the destinations [dsts] only shrinks at its tail. *)
Definition flows (srcs dsts rem : string → Prop) (d d' : gmap string value) : Prop :=
  (∀ k v, d' !! k = Some (VStr v) ↔ d !! k = Some (VStr v))
  ∧ (∀ k m, m ∈ members d' k → m ∈ members d k)
  ∧ (∀ k m, ¬ rem m → m ∈ members d k → m ∈ members d' k)
  ∧ (∀ k, ¬ srcs k → ∃ pre, queue d' k = pre ++ queue d k)
  ∧ (∀ k, ¬ dsts k → ∃ suf, queue d k = queue d' k ++ suf).

(** A worker whose heartbeat key holds no string: [GET] cannot succeed on it. *)
Definition notalive (getHeartbeatKey : string → string)
    (d : gmap string value) (workerID : string) : Prop :=
  ∀ v, d !! getHeartbeatKey workerID ≠ Some (VStr v).

(** The per-worker queue names are pairwise distinct and none of them is one
    of the two global queues. *)
Definition well_named (getActiveTaskQueueName getWatchedTaskQueueName : string → string)
    (pendingTaskQueueName deferredTaskQueueName : string) : Prop :=
  (∀ x y, getActiveTaskQueueName x = getActiveTaskQueueName y → x = y)
  ∧ (∀ x y, getWatchedTaskQueueName x = getWatchedTaskQueueName y → x = y)
  ∧ (∀ x y, getActiveTaskQueueName x ≠ getWatchedTaskQueueName y)
  ∧ (∀ x, getActiveTaskQueueName x ≠ pendingTaskQueueName
          ∧ getActiveTaskQueueName x ≠ deferredTaskQueueName
          ∧ getWatchedTaskQueueName x ≠ pendingTaskQueueName
          ∧ getWatchedTaskQueueName x ≠ deferredTaskQueueName).

(** Commands that only read. *)
Definition is_read (ev : cmd * goerror) : Prop :=
  match ev.1 with
  | SMEMBERS _ | GET _ => True
  | _ => False
  end.

(** ** Worked scenario *)

(** The scenario of the specification: worker [w1] has no heartbeat key,
    active queue [t1, t2] and watched queue [t3]; worker [w2] has a
    heartbeat; the pending queue holds [p0].  The key names follow one
    possible naming scheme. *)
Definition ex_hb (workerID : string) : string := "heartbeats:" +:+ workerID.
Definition ex_aq (workerID : string) : string := "active-tasks:" +:+ workerID.
Definition ex_wq (workerID : string) : string := "watched-tasks:" +:+ workerID.

Definition ex_db : gmap string value :=
  <["workers" := VSet {["w1"; "w2"]}]>
  (<[ex_hb "w2" := VStr "beat"]>
  (<[ex_aq "w1" := VList ["t1"; "t2"]]>
  (<[ex_wq "w1" := VList ["t3"]]>
  (<["pending" := VList ["p0"]]> ∅)))).

Definition ex_world : World := mkWorld ex_db [] None [].

(** The same keyspace with a context that is done after one open poll. *)
Definition ex_cancelled : World := mkWorld ex_db [] (Some 1) [].

(** The same keyspace with a client whose ninth reply, the GET of the
    heartbeat of [w2], is a transport fault. *)
Definition ex_faulty : World :=
  mkWorld ex_db (repeat None 8 ++ [Some (StoreErr "i/o timeout")]) None [].

(** A list that is drained into itself. *)
Definition ex_rotating (tr : list (cmd * goerror)) : World :=
  mkWorld (<["q" := VList ["t"]]> ∅) [] None tr.

(** The world a run returns, [d] when it does not return. *)
Definition world_of {A : Type} (r : option (A * World)) (d : World) : World :=
  match r with
  | Some (_, w) => w
  | None => d
  end.

Definition ex_swept : World :=
  world_of (defaultClean ex_hb ex_aq ex_wq (defaultEngine 3)
              "workers" "pending" "deferred" ex_world) ex_world.

(** A catalog of service IDs; a record is stored as the ID of its service,
    which is its plan ID as well, and no service has a plan. *)
Definition ex_pkg : ServicePkg := {|
  Codec := unit;
  Catalog := list string;
  Service := string;
  Plan := string;
  ServiceManager := unit;
  ProvisioningParameters := unit;
  UpdatingParameters := unit;
  InstanceDetails := unit;
  BindingParameters := unit;
  BindingDetails := unit;
  Instance := string * option string * option string;
  Binding := string;
  zeroInstance := (EmptyString, None, None);
  zeroBinding := EmptyString;
  Instance_ServiceID := λ i, i.1.1;
  Instance_PlanID := λ i, i.1.1;
  Instance_setService := λ svc i, (i.1.1, Some svc, i.2);
  Instance_setPlan := λ plan i, (i.1, Some plan);
  Binding_ServiceID := λ b, b;
  GetService := λ c id, if bool_decide (id ∈ c) then Some id else None;
  GetPlan := λ _ _, None;
  GetServiceManager := λ _, tt;
  GetEmptyProvisioningParameters := λ _, tt;
  GetEmptyUpdatingParameters := λ _, tt;
  GetEmptyInstanceDetails := λ _, tt;
  GetEmptyBindingParameters := λ _, tt;
  GetEmptyBindingDetails := λ _, tt;
  NewInstanceFromJSON := λ bytes _ _ _ _, ((bytes, None, None), None);
  NewBindingFromJSON := λ bytes _ _ _, (bytes, None)
|}.

Definition ex_store : @store ex_pkg := @mkStore ex_pkg ["svc-a"] tt.

Definition ex_records : World :=
  mkWorld (<[getInstanceKey "i1" := VStr "svc-x"]>
           (<[getBindingKey "b1" := VStr "svc-y"]> ∅)) [] None [].

(** ** The rest of pkg/storage/store.go *)

(** SET with expiration 0 and PING.  They go through the client like the
    other commands (a scripted reply is consumed and may override the
    answer); [trace] lists the commands of type [cmd] only and is left as it
    is. *)
Definition exec_set (k v : string) (d : gmap string value)
  : reply string * gmap string value :=
  (Ok "OK", <[k := VStr v]> d).

Definition exec_ping (d : gmap string value) : reply string * gmap string value :=
  (Ok "PONG", d).

Definition call_unlogged {A : Type}
    (exec : gmap string value → reply A * gmap string value) (w : World)
  : reply A * World :=
  match script w with
  | Some e :: s => (Err e, mkWorld (db w) s (ctx w) (trace w))
  | _ =>
      let r := exec (db w) in
      (r.1, mkWorld r.2 (tail (script w)) (ctx w) (trace w))
  end.

Definition Set_ (k v : string) : World → reply string * World :=
  call_unlogged (exec_set k v).

Definition Ping : World → reply string * World :=
  call_unlogged exec_ping.

(** What the write path uses of [service.Instance] and [service.Binding]. *)
Class ServiceJSON (P : ServicePkg) : Type := {
  Instance_InstanceID : Instance → string;
  Binding_BindingID : Binding → string;
  Instance_ToJSON : Instance → Codec → string * goerror;
  Binding_ToJSON : Binding → Codec → string * goerror
}.

Definition WriteInstance `{ServiceJSON} (s : store) (instance : Instance) (w : World)
  : goerror * World :=
  let key := getInstanceKey (Instance_InstanceID instance) in
  let (json, err) := Instance_ToJSON instance (codec s) in
  match err with
  | Some err => (Some err, w)
  | None => let (r, w1) := Set_ key json w in (replyErr r, w1)
  end.

Definition WriteBinding `{ServiceJSON} (s : store) (binding : Binding) (w : World)
  : goerror * World :=
  let key := getBindingKey (Binding_BindingID binding) in
  let (json, err) := Binding_ToJSON binding (codec s) in
  match err with
  | Some err => (Some err, w)
  | None => let (r, w1) := Set_ key json w in (replyErr r, w1)
  end.

Definition TestConnection (w : World) : goerror * World :=
  let (r, w1) := Ping w in (replyErr r, w1).

(** ** Counting tasks *)

(** Occurrences of task [t] in one value, and in all the lists of a keyspace. *)
Definition occ (t : string) (v : value) : nat :=
  match v with
  | VList l => length (filter (λ x, x = t) l)
  | _ => 0
  end.

Definition tasks (t : string) (d : gmap string value) : nat :=
  map_fold (λ _ v n, occ t v + n) 0 d.

(** A catalog in which every known service offers every plan; a record is
    stored as the ID of its service, which is also its own ID and its plan. *)
Definition ex_shop : ServicePkg := {|
  Codec := unit;
  Catalog := list string;
  Service := string;
  Plan := string;
  ServiceManager := unit;
  ProvisioningParameters := unit;
  UpdatingParameters := unit;
  InstanceDetails := unit;
  BindingParameters := unit;
  BindingDetails := unit;
  Instance := string * option string * option string;
  Binding := string;
  zeroInstance := (EmptyString, None, None);
  zeroBinding := EmptyString;
  Instance_ServiceID := λ i, i.1.1;
  Instance_PlanID := λ i, i.1.1;
  Instance_setService := λ svc i, (i.1.1, Some svc, i.2);
  Instance_setPlan := λ plan i, (i.1, Some plan);
  Binding_ServiceID := λ b, b;
  GetService := λ c id, if bool_decide (id ∈ c) then Some id else None;
  GetPlan := λ _ id, Some id;
  GetServiceManager := λ _, tt;
  GetEmptyProvisioningParameters := λ _, tt;
  GetEmptyUpdatingParameters := λ _, tt;
  GetEmptyInstanceDetails := λ _, tt;
  GetEmptyBindingParameters := λ _, tt;
  GetEmptyBindingDetails := λ _, tt;
  NewInstanceFromJSON := λ bytes _ _ _ _, ((bytes, None, None), None);
  NewBindingFromJSON := λ bytes _ _ _, (bytes, None)
|}.

Definition ex_shop_json : ServiceJSON ex_shop := {|
  Instance_InstanceID := λ i : @Instance ex_shop, i.1.1;
  Binding_BindingID := λ b : @Binding ex_shop, b;
  Instance_ToJSON := λ (i : @Instance ex_shop) _, (i.1.1, None);
  Binding_ToJSON := λ (b : @Binding ex_shop) _, (b, None)
|}.

Definition ex_shop_store : @store ex_shop := @mkStore ex_shop ["svc-a"] tt.

(** The scenario with a context that is already done. *)
Definition ex_done : World := mkWorld ex_db [] (Some 0) [].

(** The scenario with a client whose fourth reply, the second RPOPLPUSH of
    the first drain, is a transport fault. *)
Definition ex_broken : World :=
  mkWorld ex_db (repeat None 3 ++ [Some (StoreErr "i/o timeout")]) None [].

(** The scenario with a client whose second reply is a transport fault. *)
Definition ex_drain_fault : World :=
  mkWorld ex_db [None; Some (StoreErr "i/o timeout")] None [].

(** No key at all, and a context that is already done. *)
Definition ex_empty : World := mkWorld ∅ [] (Some 0) [].

Definition ex_broken_swept : World :=
  world_of (defaultClean ex_hb ex_aq ex_wq (defaultEngine 3)
              "workers" "pending" "deferred" ex_broken) ex_broken.

(** A keyspace with one instance record and no binding, and one with one
    binding record and no instance. *)
Definition ex_instance_only : World :=
  mkWorld (<[getInstanceKey "i1" := VStr "svc-x"]> ∅) [] None [].

Definition ex_binding_only : World :=
  mkWorld (<[getBindingKey "b1" := VStr "svc-y"]> ∅) [] None [].

(** * Properties *)

(** ** The client *)

Lemma call_ctx {A : Type} c (exec : gmap string value → reply A * gmap string value) w :
  ctx (call c exec w).2 = ctx w.
Proof. unfold call. by destruct (script w) as [|[e|] s]. Qed.

Lemma call_trace {A : Type} c (exec : gmap string value → reply A * gmap string value) w :
  trace (call c exec w).2 = (c, replyErr (call c exec w).1) :: trace w.
Proof. unfold call. by destruct (script w) as [|[e|] s]. Qed.

Lemma call_script {A : Type} c (exec : gmap string value → reply A * gmap string value) w :
  script (call c exec w).2 = tail (script w).
Proof. unfold call. by destruct (script w) as [|[e|] s]. Qed.

(** A reply is either scripted (an error, the keyspace untouched) or computed
    by the keyspace. *)
Lemma call_cases {A : Type} c (exec : gmap string value → reply A * gmap string value) w :
  (∃ e, head (script w) = Some (Some e) ∧ (call c exec w).1 = Err e
        ∧ db (call c exec w).2 = db w)
  ∨ ((∀ e, head (script w) ≠ Some (Some e))
     ∧ (call c exec w).1 = (exec (db w)).1 ∧ db (call c exec w).2 = (exec (db w)).2).
Proof.
  unfold call. destruct (script w) as [|[e|] s]; simpl.
  - right. by repeat split.
  - left. by exists e.
  - right. repeat split; [|done..]. by intros e.
Qed.

Lemma truthful_tail w w' :
  script w' = tail (script w) → truthful w → truthful w'.
Proof.
  unfold truthful. intros -> H. destruct (script w); [done|].
  by apply Forall_cons in H as [_ H].
Qed.

Lemma truthful_head w e :
  truthful w → head (script w) = Some (Some e) → e ≠ RedisNil.
Proof.
  unfold truthful. destruct (script w) as [|r s]; [done|].
  intros H [= ->]. apply Forall_cons in H as [H _]. congruence.
Qed.

Lemma call_truthful {A : Type} c (exec : gmap string value → reply A * gmap string value) w :
  truthful w → truthful (call c exec w).2.
Proof. apply truthful_tail, call_script. Qed.

Lemma ctxDone_db w : db (ctxDone w).2 = db w.
Proof. unfold ctxDone. by destruct (ctx w) as [[|n]|]. Qed.

Lemma ctxDone_script w : script (ctxDone w).2 = script w.
Proof. unfold ctxDone. by destruct (ctx w) as [[|n]|]. Qed.

Lemma ctxDone_trace w : trace (ctxDone w).2 = trace w.
Proof. unfold ctxDone. by destruct (ctx w) as [[|n]|]. Qed.

Lemma ctxDone_truthful w : truthful w → truthful (ctxDone w).2.
Proof. unfold truthful. by rewrite ctxDone_script. Qed.

(** ** The keyspace *)

Lemma lookup_store_list k l d k' :
  store_list k l d !! k' =
    if decide (k = k') then match l with [] => None | _ => Some (VList l) end
    else d !! k'.
Proof.
  unfold store_list. case_decide as Hk.
  - subst k'. destruct l; [apply lookup_delete_eq | apply lookup_insert_eq].
  - destruct l; [by apply lookup_delete_ne | by apply lookup_insert_ne].
Qed.

Lemma queue_store_list k l d k' :
  queue (store_list k l d) k' = if decide (k = k') then l else queue d k'.
Proof.
  unfold queue. rewrite lookup_store_list. case_decide; [|done]. by destruct l.
Qed.

Lemma lookup_store_set k s d k' :
  store_set k s d !! k' =
    if decide (k = k') then (if decide (s = ∅) then None else Some (VSet s))
    else d !! k'.
Proof.
  unfold store_set. destruct (decide (k = k')) as [<-|Hk].
  - case_decide; [apply lookup_delete_eq | apply lookup_insert_eq].
  - case_decide; [by apply lookup_delete_ne | by apply lookup_insert_ne].
Qed.

Lemma exec_get_db k d : (exec_get k d).2 = d.
Proof. unfold exec_get. by destruct (d !! k) as [[]|]. Qed.

Lemma exec_smembers_db k d : (exec_smembers k d).2 = d.
Proof. unfold exec_smembers. by destruct (d !! k) as [[]|]. Qed.

Lemma exec_get_Ok k d v : (exec_get k d).1 = Ok v ↔ d !! k = Some (VStr v).
Proof.
  unfold exec_get. destruct (d !! k) as [[]|]; simpl; split; congruence.
Qed.

Lemma exec_get_Nil k d : (exec_get k d).1 = Err RedisNil ↔ d !! k = None.
Proof.
  unfold exec_get, wrongtype. destruct (d !! k) as [[]|]; simpl; split; congruence.
Qed.

(** What a successful RPOPLPUSH does to every key. *)
Lemma exec_rpoplpush_Ok src dst d x :
  (exec_rpoplpush src dst d).1 = Ok x →
  ∃ l', d !! src = Some (VList (l' ++ [x])) ∧ is_queue d dst
    ∧ ∀ k, (exec_rpoplpush src dst d).2 !! k =
        if decide (dst = k)
        then Some (VList (x :: (if decide (src = dst) then l' else queue d dst)))
        else if decide (src = k)
             then match l' with [] => None | _ => Some (VList l') end
             else d !! k.
Proof.
  unfold exec_rpoplpush.
  destruct (d !! src) as [[v|l|s]|] eqn:Hsrc; simpl; try discriminate.
  destruct (last l) as [y|] eqn:Hl; simpl; [|discriminate].
  apply last_Some in Hl as [l' ->]. rewrite removelast_last.
  assert (∀ k,
    (<[dst:=VList (y :: queue (store_list src l' d) dst)]> (store_list src l' d)) !! k =
    if decide (dst = k)
    then Some (VList (y :: (if decide (src = dst) then l' else queue d dst)))
    else if decide (src = k)
         then match l' with [] => None | _ => Some (VList l') end
         else d !! k) as Hlook.
  { intros k. rewrite lookup_insert. case_decide as Hk.
    - by rewrite queue_store_list.
    - by rewrite lookup_store_list. }
  destruct (d !! dst) as [[v|l|s]|] eqn:Hdst; simpl; try discriminate;
    intros [= ->]; exists l'; (split; [done|split; [|exact Hlook]]).
  - intros v. rewrite Hdst. intros [= <-]. eauto.
  - intros v. by rewrite Hdst.
Qed.

Lemma exec_rpoplpush_Err src dst d e :
  (exec_rpoplpush src dst d).1 = Err e →
  (exec_rpoplpush src dst d).2 = d ∧ (e = RedisNil → queue d src = []).
Proof.
  unfold exec_rpoplpush, queue, wrongtype.
  destruct (d !! src) as [[v|l|s]|] eqn:Hsrc; simpl;
    try (intros He; by simplify_eq).
  destruct (last l) as [y|] eqn:Hl; simpl.
  - destruct (d !! dst) as [[v|l0|s]|]; simpl; intros He; by simplify_eq.
  - intros He. split; [done|]. intros _. by apply last_None.
Qed.

Lemma exec_srem_lookup k m d k' :
  k ≠ k' → (exec_srem k m d).2 !! k' = d !! k'.
Proof.
  intros Hk. unfold exec_srem. destruct (d !! k) as [[v|l|s]|]; simpl; try done.
  case_decide; simpl; [|done]. rewrite lookup_store_set. by case_decide.
Qed.

Lemma exec_srem_members k m d :
  members (exec_srem k m d).2 k = members d k ∖ {[m]}.
Proof.
  unfold exec_srem, members.
  destruct (d !! k) as [[v|l|s]|] eqn:Hk; simpl; rewrite ?Hk; try set_solver.
  case_decide as Hm; simpl.
  - rewrite lookup_store_set, decide_True by done. case_decide; set_solver.
  - rewrite Hk. set_solver.
Qed.

Lemma exec_srem_queue k m d k' :
  queue (exec_srem k m d).2 k' = queue d k'.
Proof.
  destruct (decide (k = k')) as [<-|Hk].
  - unfold exec_srem, queue.
    destruct (d !! k) as [[v|l|s]|] eqn:Hk; simpl; rewrite ?Hk; try done.
    case_decide as Hm; simpl; [|by rewrite Hk].
    rewrite lookup_store_set, decide_True by done. by case_decide.
  - unfold queue. by rewrite exec_srem_lookup.
Qed.

Lemma exec_srem_str k m d k' v :
  (exec_srem k m d).2 !! k' = Some (VStr v) ↔ d !! k' = Some (VStr v).
Proof.
  destruct (decide (k = k')) as [<-|Hk]; [|by rewrite exec_srem_lookup].
  unfold exec_srem.
  destruct (d !! k) as [[v'|l|s]|] eqn:Hk; simpl; rewrite ?Hk; try done.
  case_decide as Hm; simpl; [|by rewrite Hk].
  rewrite lookup_store_set, decide_True by done. by case_decide.
Qed.

Lemma exec_rpoplpush_reply src dst d :
  is_queue d src → is_queue d dst →
  (exec_rpoplpush src dst d).1 =
    match last (queue d src) with
    | Some x => Ok x
    | None => Err RedisNil
    end.
Proof.
  intros Hs Hd. unfold exec_rpoplpush, queue.
  destruct (d !! src) as [v|] eqn:Hsrc; [|done].
  destruct (Hs v Hsrc) as [l ->].
  destruct (last l) as [x|]; [|done].
  destruct (d !! dst) as [v|] eqn:Hdst; [|done].
  by destruct (Hd v Hdst) as [l0 ->].
Qed.

(** Effect of one successful move on the two queues, when they differ. *)
Lemma exec_rpoplpush_queues src dst d x :
  src ≠ dst → (exec_rpoplpush src dst d).1 = Ok x →
  queue d src = queue (exec_rpoplpush src dst d).2 src ++ [x]
  ∧ queue (exec_rpoplpush src dst d).2 dst = x :: queue d dst
  ∧ ∀ k, k ≠ src → k ≠ dst → (exec_rpoplpush src dst d).2 !! k = d !! k.
Proof.
  intros Hne Hok. destruct (exec_rpoplpush_Ok _ _ _ _ Hok) as (l' & Hsrc & Hdq & Hk).
  assert (queue (exec_rpoplpush src dst d).2 src = l') as ->.
  { unfold queue. rewrite Hk, decide_False, decide_True by done. by destruct l'. }
  repeat split.
  - unfold queue. by rewrite Hsrc.
  - unfold queue at 1. by rewrite Hk, decide_True, decide_False by done.
  - intros k Hks Hkd. by rewrite Hk, !decide_False by done.
Qed.

Lemma exec_rpoplpush_is_queue src dst d x k :
  (exec_rpoplpush src dst d).1 = Ok x →
  is_queue d k → is_queue (exec_rpoplpush src dst d).2 k.
Proof.
  intros Hok Hq v. destruct (exec_rpoplpush_Ok _ _ _ _ Hok) as (l' & Hsrc & Hdq & Hk).
  rewrite Hk. intros Hv.
  destruct (decide (dst = k)); [simplify_eq; eauto|].
  destruct (decide (src = k)); [|by apply Hq].
  destruct l'; simplify_eq; eauto.
Qed.

(** ** The drain loop *)

Lemma iter_Next workerID src dst w w' :
  cleanWorkerQueueIter workerID src dst w = (Next, w') →
  ∃ x, (exec_rpoplpush src dst (db w)).1 = Ok x
    ∧ db w' = (exec_rpoplpush src dst (db w)).2
    ∧ script w' = tail (script w)
    ∧ ctx w' = ctx (ctxDone w).2 ∧ ctx w ≠ Some 0
    ∧ trace w' = (RPOPLPUSH src dst, None) :: trace w.
Proof.
  unfold cleanWorkerQueueIter.
  destruct (ctxDone w) as [done w1] eqn:Hdone.
  assert (w1 = (ctxDone w).2) as -> by by rewrite Hdone.
  destruct done; [done|].
  assert (ctx w ≠ Some 0) as Hctx.
  { intros Hc. unfold ctxDone in Hdone. by rewrite Hc in Hdone. }
  unfold RPopLPush.
  destruct (call _ _ (ctxDone w).2) as [r w2] eqn:Hcall.
  pose proof (call_cases (RPOPLPUSH src dst) (exec_rpoplpush src dst) (ctxDone w).2) as Hc.
  pose proof (call_script (RPOPLPUSH src dst) (exec_rpoplpush src dst) (ctxDone w).2) as Hs.
  pose proof (call_ctx (RPOPLPUSH src dst) (exec_rpoplpush src dst) (ctxDone w).2) as Hx.
  pose proof (call_trace (RPOPLPUSH src dst) (exec_rpoplpush src dst) (ctxDone w).2) as Ht.
  rewrite Hcall in Hc, Hs, Hx, Ht. simpl in *.
  rewrite ctxDone_db, ctxDone_script in *. rewrite ctxDone_trace in Ht.
  destruct r as [x|[]]; simpl; intros [= <-].
  destruct Hc as [(e & _ & ? & _)|(_ & Hr & Hd)]; [done|].
  exists x. by rewrite Ht.
Qed.

Lemma iter_Return workerID src dst w r w' :
  cleanWorkerQueueIter workerID src dst w = (Return r, w') →
  db w' = db w
  ∧ (script w' = script w ∨ script w' = tail (script w))
  ∧ (r = None → truthful w → queue (db w) src = [])
  ∧ (r = None → trace w' = (RPOPLPUSH src dst, Some RedisNil) :: trace w)
  ∧ (r = Some CtxErr → w' = w ∧ ctx w = Some 0).
Proof.
  unfold cleanWorkerQueueIter.
  destruct (ctxDone w) as [done w1] eqn:Hdone.
  destruct done.
  { intros [= <- <-]. unfold ctxDone in Hdone.
    destruct (ctx w) as [[|n]|] eqn:Hc; simplify_eq. by repeat split; auto. }
  assert (w1 = (ctxDone w).2) as -> by by rewrite Hdone.
  unfold RPopLPush.
  destruct (call _ _ (ctxDone w).2) as [rp w2] eqn:Hcall.
  pose proof (call_cases (RPOPLPUSH src dst) (exec_rpoplpush src dst) (ctxDone w).2) as Hc.
  pose proof (call_script (RPOPLPUSH src dst) (exec_rpoplpush src dst) (ctxDone w).2) as Hs.
  pose proof (call_trace (RPOPLPUSH src dst) (exec_rpoplpush src dst) (ctxDone w).2) as Ht.
  rewrite Hcall in Hc, Hs, Ht. simpl in *.
  rewrite ctxDone_db, ctxDone_script in *. rewrite ctxDone_trace in Ht.
  assert (∀ e, rp = Err e →
    db w2 = db w ∧ (e = RedisNil → truthful w → queue (db w) src = [])) as Herr.
  { intros e ->. destruct Hc as [(e' & Hh & [= <-] & Hd)|(_ & Hr & Hd)].
    - split; [done|]. intros -> Htr. by destruct (truthful_head _ _ Htr Hh).
    - symmetry in Hr. destruct (exec_rpoplpush_Err _ _ _ _ Hr) as [Hd' Hq].
      split; [congruence|auto]. }
  destruct rp as [x|e]; simpl; [done|].
  destruct (Herr e eq_refl) as [Hd Hq].
  destruct e; intros [= <- <-]; repeat split; auto; try done.
Qed.

Lemma flows_refl srcs dsts rem d : flows srcs dsts rem d d.
Proof.
  split_and!; try done.
  - intros k _. by exists [].
  - intros k _. exists []. by rewrite app_nil_r.
Qed.

Lemma flows_trans srcs dsts rem d1 d2 d3 :
  flows srcs dsts rem d1 d2 → flows srcs dsts rem d2 d3 → flows srcs dsts rem d1 d3.
Proof.
  intros (A1 & A2 & A3 & A4 & A5) (B1 & B2 & B3 & B4 & B5). split_and!.
  - intros k v. by rewrite B1, A1.
  - intros k m Hm. by apply A2, B2.
  - intros k m Hr Hm. by apply B3, A3.
  - intros k Hk. destruct (A4 k Hk) as [p1 E1]. destruct (B4 k Hk) as [p2 E2].
    exists (p2 ++ p1). by rewrite E2, E1, app_assoc.
  - intros k Hk. destruct (A5 k Hk) as [s1 E1]. destruct (B5 k Hk) as [s2 E2].
    exists (s2 ++ s1). by rewrite E1, E2, app_assoc.
Qed.

Lemma flows_mono (srcs dsts rem srcs' dsts' rem' : string → Prop) d d' :
  (∀ k, srcs k → srcs' k) → (∀ k, dsts k → dsts' k) → (∀ m, rem m → rem' m) →
  flows srcs dsts rem d d' → flows srcs' dsts' rem' d d'.
Proof.
  intros Hs Hd Hr (A1 & A2 & A3 & A4 & A5). split_and!; [done|done|..].
  - intros k m Hm. apply A3. auto.
  - intros k Hk. apply A4. auto.
  - intros k Hk. apply A5. auto.
Qed.

(** A queue that is neither drained nor fed keeps its contents. *)
Lemma flows_frame srcs dsts rem d d' k :
  flows srcs dsts rem d d' → ¬ srcs k → ¬ dsts k → queue d' k = queue d k.
Proof.
  intros (_ & _ & _ & A4 & A5) Hs Hd.
  destruct (A4 k Hs) as [pre E1]. destruct (A5 k Hd) as [suf E2].
  assert (length pre = 0) as Hl.
  { apply (f_equal length) in E1, E2. rewrite length_app in E1, E2. lia. }
  destruct pre; [done|discriminate].
Qed.


Lemma exec_rpoplpush_flows src dst d x :
  (exec_rpoplpush src dst d).1 = Ok x →
  flows (λ k, k = src) (λ k, k = dst) (λ _, False) d (exec_rpoplpush src dst d).2.
Proof.
  intros Hok. destruct (exec_rpoplpush_Ok _ _ _ _ Hok) as (l' & Hsrc & Hdq & Hk).
  assert (∀ k, members (exec_rpoplpush src dst d).2 k = members d k) as Hmem.
  { intros k. unfold members. rewrite Hk.
    destruct (decide (dst = k)) as [<-|].
    { destruct (d !! dst) as [v|] eqn:Hv; [|done]. by destruct (Hdq _ Hv) as [l ->]. }
    destruct (decide (src = k)) as [<-|]; [|done].
    rewrite Hsrc. by destruct l'. }
  split_and!.
  - intros k v. rewrite Hk. destruct (decide (dst = k)) as [<-|].
    { split; [done|]. intros Hv. by destruct (Hdq _ Hv). }
    destruct (decide (src = k)) as [<-|]; [|done].
    rewrite Hsrc. by destruct l'.
  - intros k m. by rewrite Hmem.
  - intros k m _. by rewrite Hmem.
  - intros k Hks. unfold queue at 1. rewrite Hk.
    destruct (decide (dst = k)) as [<-|].
    { exists [x]. by rewrite decide_False by done. }
    rewrite decide_False by done. by exists [].
  - intros k Hkd. unfold queue at 2. rewrite Hk, decide_False by done.
    destruct (decide (src = k)) as [<-|].
    + exists [x]. unfold queue. rewrite Hsrc. by destruct l'.
    + exists []. by rewrite app_nil_r.
Qed.

Lemma drain_flows fuel workerID src dst w r w' :
  defaultCleanWorkerQueue fuel workerID src dst w = Some (r, w') →
  flows (λ k, k = src) (λ k, k = dst) (λ _, False) (db w) (db w')
  ∧ (truthful w → truthful w').
Proof.
  revert w. induction fuel as [|fuel IH]; intros w; simpl; [done|].
  destruct (cleanWorkerQueueIter workerID src dst w) as [[|r0] w1] eqn:Hit.
  - intros Hrun. destruct (iter_Next _ _ _ _ _ Hit) as (x & Hok & Hd & Hs & _).
    destruct (IH _ Hrun) as [Hsc Htr]. split.
    + eapply flows_trans; [|exact Hsc]. rewrite Hd.
      by eapply exec_rpoplpush_flows.
    + intros Hw. apply Htr. by eapply truthful_tail.
  - intros [= <- <-]. destruct (iter_Return _ _ _ _ _ _ Hit) as (Hd & Hs & _).
    rewrite Hd. split; [apply flows_refl|].
    destruct Hs as [Hs|Hs].
    + unfold truthful. by rewrite Hs.
    + by apply truthful_tail.
Qed.


(** What a run of the drain loop has done when it returns, whatever it
    returns: the elements [moved] went, in order, from the tail of the source
    to the head of the destination, one command each. *)
Lemma drain_spec fuel workerID src dst w r w' :
  src ≠ dst →
  defaultCleanWorkerQueue fuel workerID src dst w = Some (r, w') →
  ∃ moved,
    queue (db w) src = queue (db w') src ++ moved
    ∧ queue (db w') dst = moved ++ queue (db w) dst
    ∧ (∀ k, k ≠ src → k ≠ dst → db w' !! k = db w !! k)
    ∧ (r = None → truthful w → queue (db w') src = [])
    ∧ (r = None →
       trace w' = (RPOPLPUSH src dst, Some RedisNil)
                    :: repeat (RPOPLPUSH src dst, None) (length moved) ++ trace w)
    ∧ (r = Some CtxErr →
       trace w' = repeat (RPOPLPUSH src dst, None) (length moved) ++ trace w
       ∧ ctx w = Some (length moved) ∧ ctx w' = Some 0).
Proof.
  intros Hne. revert w. induction fuel as [|fuel IH]; intros w; simpl; [done|].
  destruct (cleanWorkerQueueIter workerID src dst w) as [[|r0] w1] eqn:Hit.
  - intros Hrun.
    destruct (iter_Next _ _ _ _ _ Hit) as (x & Hok & Hd & Hs & Hc1 & Hc0 & Ht).
    destruct (exec_rpoplpush_queues _ _ _ _ Hne Hok) as (Hq1 & Hq2 & Hfr).
    rewrite <- Hd in Hq1, Hq2, Hfr.
    destruct (IH _ Hrun) as (moved & Hm1 & Hm2 & Hm3 & Hm4 & Hm5 & Hm6).
    assert (repeat (RPOPLPUSH src dst, @None error) (length (moved ++ [x])) ++ trace w
            = repeat (RPOPLPUSH src dst, None) (length moved) ++ trace w1) as Hrep.
    { rewrite length_app, repeat_app, Ht. simpl. by rewrite <- app_assoc. }
    exists (moved ++ [x]). split_and!.
    + by rewrite Hq1, Hm1, app_assoc.
    + by rewrite Hm2, Hq2, <- app_assoc.
    + intros k Hks Hkd. by rewrite Hm3, Hfr.
    + intros Hr Hw. apply Hm4; [done|]. by eapply truthful_tail.
    + intros Hr. by rewrite Hrep, Hm5.
    + intros Hr. destruct (Hm6 Hr) as (Ht' & Hc' & Hc''). rewrite Hrep.
      split_and!; [done| |done].
      rewrite Hc1 in Hc'. unfold ctxDone in Hc'.
      destruct (ctx w) as [[|n]|] eqn:Hcw; simpl in Hc'; rewrite ?Hcw in Hc';
        simplify_eq.
      rewrite length_app. simpl. f_equal. lia.
  - intros [= <- <-].
    destruct (iter_Return _ _ _ _ _ _ Hit) as (Hd & Hs & Hq & Ht & Hc).
    exists []. rewrite Hd, app_nil_r. simpl. split_and!; auto;
      intros Hr; by destruct (Hc Hr) as [-> ?].
Qed.

Lemma iter_decreases workerID src dst w w' :
  src ≠ dst →
  cleanWorkerQueueIter workerID src dst w = (Next, w') →
  S (length (queue (db w') src)) = length (queue (db w) src).
Proof.
  intros Hne Hit. destruct (iter_Next _ _ _ _ _ Hit) as (x & Hok & Hd & _).
  destruct (exec_rpoplpush_queues _ _ _ _ Hne Hok) as (Hq1 & _).
  rewrite Hd, Hq1, length_app. simpl. lia.
Qed.

Lemma drain_returns fuel workerID src dst w :
  src ≠ dst → length (queue (db w) src) < fuel →
  ∃ r w', defaultCleanWorkerQueue fuel workerID src dst w = Some (r, w').
Proof.
  intros Hne. revert w. induction fuel as [|fuel IH]; intros w Hlen; [lia|]. simpl.
  destruct (cleanWorkerQueueIter workerID src dst w) as [[|r0] w1] eqn:Hit; [|eauto].
  apply IH. apply (iter_decreases _ _ _ _ _ Hne) in Hit. lia.
Qed.

(** With no override and no cancellation the loop body is decided by the
    source queue alone. *)
Lemma iter_faultless workerID src dst w :
  ctx w = None → faultless w → is_queue (db w) src → is_queue (db w) dst →
  (cleanWorkerQueueIter workerID src dst w).1 =
    match last (queue (db w) src) with
    | Some _ => Next
    | None => Return None
    end.
Proof.
  intros Hc Hf Hs Hd. unfold cleanWorkerQueueIter, ctxDone. rewrite Hc.
  unfold RPopLPush.
  destruct (call (RPOPLPUSH src dst) (exec_rpoplpush src dst) w) as [r w2] eqn:Hcall.
  pose proof (call_cases (RPOPLPUSH src dst) (exec_rpoplpush src dst) w) as Hcs.
  rewrite Hcall in Hcs. simpl in Hcs.
  destruct Hcs as [(e & Hh & _)|(_ & -> & _)].
  - unfold faultless in Hf. destruct (script w) as [|o l]; [done|].
    simpl in Hh. apply Forall_cons in Hf as [-> _]. done.
  - rewrite exec_rpoplpush_reply by done. by destruct (last (queue (db w) src)).
Qed.

Lemma faultless_truthful w : faultless w → truthful w.
Proof.
  unfold faultless, truthful. intros H. eapply Forall_impl; [exact H|].
  by intros ? ->.
Qed.

Lemma faultless_tail w w' :
  script w' = tail (script w) → faultless w → faultless w'.
Proof.
  unfold faultless. intros -> H. destruct (script w); [done|].
  by apply Forall_cons in H as [_ H].
Qed.

Lemma drain_returns_nil fuel workerID src dst w :
  src ≠ dst → is_queue (db w) src → is_queue (db w) dst →
  faultless w → ctx w = None → length (queue (db w) src) < fuel →
  ∃ w', defaultCleanWorkerQueue fuel workerID src dst w = Some (None, w').
Proof.
  intros Hne. revert w.
  induction fuel as [|fuel IH]; intros w Hs Hd Hf Hc Hlen; [lia|]. simpl.
  pose proof (iter_faultless workerID src dst w Hc Hf Hs Hd) as Hfst.
  destruct (cleanWorkerQueueIter workerID src dst w) as [fl w1] eqn:Hit.
  simpl in Hfst. destruct (last (queue (db w) src)) as [x|]; subst fl; [|eauto].
  pose proof (iter_decreases _ _ _ _ _ Hne Hit) as Hdec.
  destruct (iter_Next _ _ _ _ _ Hit) as (y & Hok & Hdb & Hsc & Hcx & _).
  apply IH; [| | | |lia].
  - rewrite Hdb. by eapply exec_rpoplpush_is_queue.
  - rewrite Hdb. by eapply exec_rpoplpush_is_queue.
  - by eapply faultless_tail.
  - rewrite Hcx. unfold ctxDone. by rewrite Hc.
Qed.

(** C2. A drain from [src] to a different queue [dst] that meets no store
    error and no cancellation returns [nil]; it has then issued one
    RPOPLPUSH per element of the source (and a last one answered
    [redis.Nil]), the source is empty and the destination reads, head to
    tail, the old source followed by the old destination. *)
Theorem drainQueue_moves_everything (fuel : nat) (workerID src dst : string) (w : World) :
  src ≠ dst → is_queue (db w) src → is_queue (db w) dst →
  faultless w → ctx w = None →
  length (queue (db w) src) < fuel →
  ∃ w', defaultCleanWorkerQueue fuel workerID src dst w = Some (None, w')
    ∧ queue (db w') src = []
    ∧ queue (db w') dst = queue (db w) src ++ queue (db w) dst
    ∧ (∀ k, k ≠ src → k ≠ dst → db w' !! k = db w !! k)
    ∧ trace w' = (RPOPLPUSH src dst, Some RedisNil)
                   :: repeat (RPOPLPUSH src dst, None) (length (queue (db w) src))
                   ++ trace w.
Proof.
  intros Hne Hs Hd Hf Hc Hlen.
  destruct (drain_returns_nil fuel workerID src dst w) as [w' Hrun]; try done.
  exists w'. split; [done|].
  destruct (drain_spec _ _ _ _ _ _ _ Hne Hrun) as (moved & H1 & H2 & H3 & H4 & H5 & _).
  pose proof (H4 eq_refl (faultless_truthful _ Hf)) as Hnil.
  rewrite Hnil in H1. simpl in H1. subst moved. auto.
Qed.

(** C6. A drain that returns the cancellation error has completed exactly as
    many moves as polls of the context found it open: the source lost the
    elements [moved] at its tail, the destination gained them at its head,
    no other key changed, and nothing but successful RPOPLPUSH commands was
    issued. *)
Theorem drainQueue_cancel_whole_moves (fuel : nat) (workerID src dst : string)
    (w w' : World) :
  src ≠ dst →
  defaultCleanWorkerQueue fuel workerID src dst w = Some (Some CtxErr, w') →
  ∃ moved,
    ctx w = Some (length moved)
    ∧ queue (db w) src = queue (db w') src ++ moved
    ∧ queue (db w') dst = moved ++ queue (db w) dst
    ∧ (∀ k, k ≠ src → k ≠ dst → db w' !! k = db w !! k)
    ∧ trace w' = repeat (RPOPLPUSH src dst, None) (length moved) ++ trace w.
Proof.
  intros Hne Hrun.
  destruct (drain_spec _ _ _ _ _ _ _ Hne Hrun) as (moved & H1 & H2 & H3 & _ & _ & H6).
  destruct (H6 eq_refl) as (Ht & Hc & _). by exists moved.
Qed.

(** C10 (amended). When source and destination are different keys, a pass
    through the loop body that does not return shortens the source by one,
    the loop returns within [length source + 1] passes whatever the store
    and the context do, and a [nil] return under a truthful client comes
    after exactly [length source] moves. *)
Theorem drainQueue_terminates (fuel : nat) (workerID src dst : string) (w : World) :
  src ≠ dst →
  length (queue (db w) src) < fuel →
  (∀ w1, cleanWorkerQueueIter workerID src dst w = (Next, w1) →
         S (length (queue (db w1) src)) = length (queue (db w) src))
  ∧ ∃ r w',
      defaultCleanWorkerQueue fuel workerID src dst w = Some (r, w')
      ∧ (r = None → truthful w →
         trace w' = (RPOPLPUSH src dst, Some RedisNil)
                      :: repeat (RPOPLPUSH src dst, None) (length (queue (db w) src))
                      ++ trace w).
Proof.
  intros Hne Hlen. split; [intros w1; by apply iter_decreases|].
  destruct (drain_returns fuel workerID src dst w Hne Hlen) as (r & w' & Hrun).
  exists r, w'. split; [done|]. intros -> Htr.
  destruct (drain_spec _ _ _ _ _ _ _ Hne Hrun) as (moved & H1 & _ & _ & H4 & H5 & _).
  rewrite (H4 eq_refl Htr) in H1. simpl in H1. subst moved. auto.
Qed.


(** ** The commands of the sweep *)

Lemma Get_inv k w r w1 :
  Get k w = (r, w1) →
  db w1 = db w ∧ script w1 = tail (script w) ∧ ctx w1 = ctx w
  ∧ trace w1 = (GET k, replyErr r) :: trace w
  ∧ (∀ v, r = Ok v → db w !! k = Some (VStr v))
  ∧ (truthful w → r = Err RedisNil → db w !! k = None)
  ∧ (∀ v, db w !! k = Some (VStr v) →
       r = Ok v ∨ ∃ e, head (script w) = Some (Some e) ∧ r = Err e).
Proof.
  unfold Get. intros Hcall.
  pose proof (call_cases (GET k) (exec_get k) w) as Hc.
  pose proof (call_script (GET k) (exec_get k) w) as Hs.
  pose proof (call_ctx (GET k) (exec_get k) w) as Hx.
  pose proof (call_trace (GET k) (exec_get k) w) as Ht.
  rewrite Hcall in Hc, Hs, Hx, Ht. simpl in *.
  split_and!; try done.
  - destruct Hc as [(e & _ & _ & Hd)|(_ & _ & Hd)]; [done|]. by rewrite Hd, exec_get_db.
  - intros v ->. destruct Hc as [(e & _ & ? & _)|(_ & Hr & _)]; [done|].
    by apply exec_get_Ok.
  - intros Htr ->. destruct Hc as [(e & Hh & [= <-] & _)|(_ & Hr & _)].
    + by destruct (truthful_head _ _ Htr Hh).
    + by apply exec_get_Nil.
  - intros v Hv. destruct Hc as [(e & Hh & -> & _)|(_ & -> & _)]; [eauto|].
    left. by apply exec_get_Ok.
Qed.

Lemma exec_srem_flows k m d :
  flows (λ _, False) (λ _, False) (λ x, x = m) d (exec_srem k m d).2.
Proof.
  split_and!.
  - intros k' v. apply exec_srem_str.
  - intros k' x. destruct (decide (k = k')) as [<-|Hk].
    + rewrite exec_srem_members. set_solver.
    + unfold members. by rewrite exec_srem_lookup.
  - intros k' x Hx. destruct (decide (k = k')) as [<-|Hk].
    + rewrite exec_srem_members. set_solver.
    + unfold members. by rewrite exec_srem_lookup.
  - intros k' _. exists []. by rewrite exec_srem_queue.
  - intros k' _. exists []. by rewrite exec_srem_queue, app_nil_r.
Qed.

Lemma exec_srem_Err k m d e : (exec_srem k m d).1 = Err e → (exec_srem k m d).2 = d ∧ e ≠ RedisNil.
Proof.
  unfold exec_srem, wrongtype. destruct (d !! k) as [[v|l|s]|]; simpl; try done;
    try (intros ?; by simplify_eq).
  by case_decide.
Qed.

Lemma SRem_inv k m w r w1 :
  SRem k m w = (r, w1) →
  script w1 = tail (script w) ∧ ctx w1 = ctx w
  ∧ trace w1 = (SREM k m, replyErr r) :: trace w
  ∧ flows (λ _, False) (λ _, False) (λ x, x = m) (db w) (db w1)
  ∧ (replyErr r = None → m ∉ members (db w1) k)
  ∧ (truthful w → replyErr r ≠ Some RedisNil)
  ∧ (∀ e, r = Err e → db w1 = db w).
Proof.
  unfold SRem. intros Hcall.
  pose proof (call_cases (SREM k m) (exec_srem k m) w) as Hc.
  pose proof (call_script (SREM k m) (exec_srem k m) w) as Hs.
  pose proof (call_ctx (SREM k m) (exec_srem k m) w) as Hx.
  pose proof (call_trace (SREM k m) (exec_srem k m) w) as Ht.
  rewrite Hcall in Hc, Hs, Hx, Ht. simpl in *.
  split_and!; try done.
  - destruct Hc as [(e & _ & _ & ->)|(_ & _ & ->)];
      [apply flows_refl|apply exec_srem_flows].
  - intros Hr. destruct Hc as [(e & _ & -> & _)|(_ & _ & ->)]; [done|].
    rewrite exec_srem_members. set_solver.
  - intros Htr Hr. destruct Hc as [(e & Hh & -> & _)|(_ & -> & _)].
    + simpl in Hr. simplify_eq. by destruct (truthful_head _ _ Htr Hh).
    + destruct (exec_srem k m (db w)).1 as [n|e] eqn:He; [done|].
      apply exec_srem_Err in He as [_ He]. simpl in Hr. congruence.
  - intros e ->. destruct Hc as [(e' & _ & _ & Hd)|(_ & Hr & ->)]; [done|].
    symmetry in Hr. by apply exec_srem_Err in Hr as [-> _].
Qed.

Lemma SMembers_inv k w r w1 :
  SMembers k w = (r, w1) →
  db w1 = db w ∧ script w1 = tail (script w) ∧ ctx w1 = ctx w
  ∧ trace w1 = (SMEMBERS k, replyErr r) :: trace w
  ∧ (∀ l, r = Ok l → ∀ x, x ∈ l ↔ x ∈ members (db w) k)
  ∧ (truthful w → r ≠ Err RedisNil).
Proof.
  unfold SMembers. intros Hcall.
  pose proof (call_cases (SMEMBERS k) (exec_smembers k) w) as Hc.
  pose proof (call_script (SMEMBERS k) (exec_smembers k) w) as Hs.
  pose proof (call_ctx (SMEMBERS k) (exec_smembers k) w) as Hx.
  pose proof (call_trace (SMEMBERS k) (exec_smembers k) w) as Ht.
  rewrite Hcall in Hc, Hs, Hx, Ht. simpl in *.
  split_and!; try done.
  - destruct Hc as [(e & _ & _ & Hd)|(_ & _ & Hd)]; [done|].
    by rewrite Hd, exec_smembers_db.
  - intros l ->. destruct Hc as [(e & _ & ? & _)|(_ & Hr & _)]; [done|].
    revert Hr. unfold exec_smembers, members.
    destruct (db w !! k) as [[v|l0|s]|]; simpl; try done; intros [= ->] x.
    + apply elem_of_elements.
    + set_solver.
  - intros Htr ->. destruct Hc as [(e & Hh & [= <-] & _)|(_ & Hr & _)].
    + by destruct (truthful_head _ _ Htr Hh).
    + revert Hr. unfold exec_smembers, wrongtype.
      by destruct (db w !! k) as [[v|l0|s]|].
Qed.

Lemma ctxDone_inv w b w' :
  ctxDone w = (b, w') →
  db w' = db w ∧ script w' = script w ∧ trace w' = trace w
  ∧ (b = true → w' = w ∧ ctx w = Some 0).
Proof.
  unfold ctxDone. destruct (ctx w) as [[|n]|] eqn:Hc; intros [= <- <-]; by split_and!.
Qed.

(** ** One worker of the sweep *)

Section CleanerFacts.

Variable getHeartbeatKey : string → string.
Variable getActiveTaskQueueName : string → string.
Variable getWatchedTaskQueueName : string → string.

Local Abbreviation hb := getHeartbeatKey.
Local Abbreviation aq := getActiveTaskQueueName.
Local Abbreviation wq := getWatchedTaskQueueName.
Local Abbreviation clean_worker :=
  (cleanWorker getHeartbeatKey getActiveTaskQueueName getWatchedTaskQueueName).
Local Abbreviation clean_workers :=
  (cleanWorkers getHeartbeatKey getActiveTaskQueueName getWatchedTaskQueueName).
Local Abbreviation default_clean :=
  (defaultClean getHeartbeatKey getActiveTaskQueueName getWatchedTaskQueueName).

(** A pass that leaves the loop always carries an error. *)
Lemma cleanWorker_Return e ws P D x w r w' :
  clean_worker e ws P D x w = Some (Return r, w') → r ≠ None.
Proof.
  unfold cleanWorker.
  destruct (Get (hb x) w) as [g w1].
  destruct (replyErr g) as [[]|]; simpl.
  - destruct (cleanActiveTaskQueue e x (aq x) P w1) as [[[err|] w2]|]; [congruence| |done].
    destruct (cleanWatchedTaskQueue e x (wq x) D w2) as [[[err|] w3]|]; [congruence| |done].
    destruct (SRem ws x w3) as [sr w4].
    destruct (replyErr sr) as [[]|]; try congruence;
      destruct (ctxDone w4) as [[] w5]; congruence.
  - congruence.
  - congruence.
  - congruence.
  - destruct (ctxDone w1) as [[] w5]; congruence.
Qed.

Lemma cleanWorker_flows fuel ws P D x w f w' :
  clean_worker (defaultEngine fuel) ws P D x w = Some (f, w') →
  truthful w →
  truthful w'
  ∧ flows (λ k, notalive hb (db w) x ∧ (k = aq x ∨ k = wq x))
          (λ k, k = P ∨ k = D)
          (λ m, m = x ∧ notalive hb (db w) x) (db w) (db w').
Proof.
  unfold cleanWorker. intros Hrun Htr.
  destruct (Get (hb x) w) as [g w1] eqn:HG.
  destruct (Get_inv _ _ _ _ HG) as (Hd1 & Hs1 & _ & _ & _ & Hnil & _).
  pose proof (truthful_tail _ _ Hs1 Htr) as Htr1.
  assert (∀ w5 b, ctxDone w1 = (b, w5) → truthful w5 ∧ db w5 = db w) as Hskip.
  { intros w5 b Hc. destruct (ctxDone_inv _ _ _ Hc) as (Hd & Hs & _).
    split; [|congruence]. unfold truthful. by rewrite Hs. }
  destruct g as [v|err]; simpl in Hrun.
  { destruct (ctxDone w1) as [b w5] eqn:Hc. destruct (Hskip _ _ eq_refl) as [? Hd].
    destruct b; simplify_eq; (split; [done|]); rewrite Hd; apply flows_refl. }
  destruct err; try (simplify_eq; split; [done|]; rewrite Hd1; apply flows_refl).
  assert (notalive hb (db w) x) as Hdead.
  { intros v. by rewrite (Hnil Htr eq_refl). }
  simpl in Hrun.
  destruct (defaultCleanWorkerQueue fuel x (aq x) P w1) as [[r2 w2]|] eqn:HD1; [|done].
  destruct (drain_flows _ _ _ _ _ _ _ HD1) as [Hf2 Ht2].
  assert (flows (λ k, notalive hb (db w) x ∧ (k = aq x ∨ k = wq x))
            (λ k, k = P ∨ k = D) (λ m, m = x ∧ notalive hb (db w) x)
            (db w) (db w2)) as Hfl2.
  { rewrite Hd1 in Hf2. eapply flows_mono; [| | |exact Hf2]; simpl; tauto. }
  destruct r2 as [err|]; [simplify_eq; auto|].
  destruct (defaultCleanWorkerQueue fuel x (wq x) D w2) as [[r3 w3]|] eqn:HD2; [|done].
  destruct (drain_flows _ _ _ _ _ _ _ HD2) as [Hf3 Ht3].
  assert (flows (λ k, notalive hb (db w) x ∧ (k = aq x ∨ k = wq x))
            (λ k, k = P ∨ k = D) (λ m, m = x ∧ notalive hb (db w) x)
            (db w) (db w3)) as Hfl3.
  { eapply flows_trans; [exact Hfl2|].
    eapply flows_mono; [| | |exact Hf3]; simpl; tauto. }
  destruct r3 as [err|]; [simplify_eq; auto|].
  destruct (SRem ws x w3) as [sr w4] eqn:HS.
  destruct (SRem_inv _ _ _ _ _ HS) as (Hs4 & _ & _ & Hf4 & _).
  assert (truthful w4) as Htr4 by (eapply truthful_tail; eauto).
  assert (flows (λ k, notalive hb (db w) x ∧ (k = aq x ∨ k = wq x))
            (λ k, k = P ∨ k = D) (λ m, m = x ∧ notalive hb (db w) x)
            (db w) (db w4)) as Hfl4.
  { eapply flows_trans; [exact Hfl3|].
    eapply flows_mono; [| | |exact Hf4]; simpl; tauto. }
  assert (∀ w5 b, ctxDone w4 = (b, w5) → truthful w5 ∧ db w5 = db w4) as Hskip4.
  { intros w5 b Hc. destruct (ctxDone_inv _ _ _ Hc) as (Hd & Hs & _).
    split; [|congruence]. unfold truthful. by rewrite Hs. }
  destruct (replyErr sr) as [[]|]; try (simplify_eq; auto);
    destruct (ctxDone w4) as [b w5] eqn:Hc; destruct (Hskip4 _ _ eq_refl) as [? Hd];
    destruct b; simplify_eq; (split; [done|]); by rewrite Hd.
Qed.

(** ** The sweep over the snapshot *)

Lemma cleanWorkers_cons_nil e ws P D x rest w w' :
  clean_workers e ws P D (x :: rest) w = Some (None, w') →
  ∃ w1, clean_worker e ws P D x w = Some (Next, w1)
      ∧ clean_workers e ws P D rest w1 = Some (None, w').
Proof.
  simpl. destruct (clean_worker e ws P D x w) as [[[|r0] w1]|] eqn:HW; [eauto| |done].
  intros [= -> ->]. by destruct (cleanWorker_Return _ _ _ _ _ _ _ _ HW).
Qed.

Lemma cleanWorkers_flows fuel ws P D l w r w' :
  clean_workers (defaultEngine fuel) ws P D l w = Some (r, w') →
  truthful w →
  truthful w'
  ∧ flows (λ k, ∃ x, x ∈ l ∧ notalive hb (db w) x ∧ (k = aq x ∨ k = wq x))
          (λ k, k = P ∨ k = D)
          (λ m, m ∈ l ∧ notalive hb (db w) m) (db w) (db w').
Proof.
  revert w. induction l as [|x rest IH]; intros w Hrun Htr.
  { simpl in Hrun. simplify_eq. split; [done|apply flows_refl]. }
  simpl in Hrun.
  destruct (clean_worker (defaultEngine fuel) ws P D x w) as [[f w1]|] eqn:HW; [|done].
  destruct (cleanWorker_flows _ _ _ _ _ _ _ _ HW Htr) as [Htr1 Hf1].
  assert (flows (λ k, ∃ y, y ∈ x :: rest ∧ notalive hb (db w) y ∧ (k = aq y ∨ k = wq y))
            (λ k, k = P ∨ k = D)
            (λ m, m ∈ x :: rest ∧ notalive hb (db w) m) (db w) (db w1)) as Hf1'.
  { eapply flows_mono; [| | |exact Hf1]; simpl.
    - intros k [Hd Hk]. exists x. split; [left|done].
    - done.
    - intros m [-> Hd]. split; [left|done]. }
  destruct f as [|r0]; [|by simplify_eq].
  destruct (IH _ Hrun Htr1) as [Htr' Hf2]. split; [done|].
  eapply flows_trans; [exact Hf1'|].
  destruct Hf1 as (Hstr & _).
  assert (∀ y, notalive hb (db w1) y → notalive hb (db w) y) as Hna.
  { intros y Hy v Hv. apply (Hy v). by apply Hstr. }
  eapply flows_mono; [| | |exact Hf2]; simpl.
  - intros k (y & Hy & Hd & Hk). exists y. split; [by right|auto].
  - done.
  - intros m [Hm Hd]. split; [by right|auto].
Qed.

(** C3. A worker of the set whose heartbeat key holds a value keeps both
    its queues, its heartbeat and its membership through a sweep, however
    the sweep ends. *)
Theorem clean_leaves_live_workers_alone (fuel : nat) (ws P D workerID v : string)
    (w w' : World) (r : goerror) :
  well_named aq wq P D →
  truthful w →
  workerID ∈ members (db w) ws →
  db w !! hb workerID = Some (VStr v) →
  default_clean (defaultEngine fuel) ws P D w = Some (r, w') →
  queue (db w') (aq workerID) = queue (db w) (aq workerID)
  ∧ queue (db w') (wq workerID) = queue (db w) (wq workerID)
  ∧ workerID ∈ members (db w') ws
  ∧ db w' !! hb workerID = Some (VStr v).
Proof.
  intros (Hia & Hiw & Haw & Hg) Htr Hin Hhb. unfold defaultClean.
  destruct (SMembers ws w) as [sm w1] eqn:HS.
  destruct (SMembers_inv _ _ _ _ HS) as (Hd1 & Hs1 & _ & _ & Hl & _).
  pose proof (truthful_tail _ _ Hs1 Htr) as Htr1.
  destruct sm as [l|err].
  2:{ destruct err; intros [= <- <-]; by rewrite Hd1. }
  intros Hrun. destruct (cleanWorkers_flows _ _ _ _ _ _ _ _ Hrun Htr1) as [_ Hf].
  rewrite Hd1 in Hf.
  assert (¬ notalive hb (db w) workerID) as Halive.
  { intros Hn. by apply (Hn v). }
  split_and!.
  - eapply flows_frame; [exact Hf| |].
    + intros (y & _ & Hn & [E|E]); [|by apply Haw in E].
      apply Hia in E. by subst y.
    + destruct (Hg workerID) as (? & ? & _). intros [|]; done.
  - eapply flows_frame; [exact Hf| |].
    + intros (y & _ & Hn & [E|E]); [symmetry in E; by apply Haw in E|].
      apply Hiw in E. by subst y.
    + destruct (Hg workerID) as (_ & _ & ? & ?). intros [|]; done.
  - destruct Hf as (_ & _ & A3 & _). apply A3; [|done]. by intros [_ ?].
  - destruct Hf as (A1 & _). by apply A1.
Qed.

(** What the reclaim of one dead worker has done when the loop goes on. *)
Lemma cleanWorker_reclaims fuel ws P D x w w' :
  well_named aq wq P D →
  truthful w → notalive hb (db w) x →
  clean_worker (defaultEngine fuel) ws P D x w = Some (Next, w') →
  queue (db w') (aq x) = [] ∧ queue (db w') (wq x) = []
  ∧ (x ∉ members (db w') ws)
  ∧ (∃ pre, queue (db w') P = pre ++ queue (db w) (aq x) ++ queue (db w) P)
  ∧ (∃ mid, queue (db w') D = queue (db w) (wq x) ++ mid ++ queue (db w) D).
Proof.
  intros (Hia & Hiw & Haw & Hg) Htr Hdead. destruct (Hg x) as (HaP & HaD & HwP & HwD).
  unfold cleanWorker.
  destruct (Get (hb x) w) as [g w1] eqn:HG.
  destruct (Get_inv _ _ _ _ HG) as (Hd1 & Hs1 & _ & _ & Hok & _).
  pose proof (truthful_tail _ _ Hs1 Htr) as Htr1.
  destruct g as [v|err]; [by destruct (Hdead v (Hok v eq_refl))|].
  destruct err; simpl; try done.
  destruct (defaultCleanWorkerQueue fuel x (aq x) P w1) as [[[err|] w2]|] eqn:HD1;
    try done.
  destruct (defaultCleanWorkerQueue fuel x (wq x) D w2) as [[[err|] w3]|] eqn:HD2;
    try done.
  destruct (drain_spec _ _ _ _ _ _ _ HaP HD1) as (m1 & A1 & A2 & A3 & A4 & _).
  destruct (drain_flows _ _ _ _ _ _ _ HD1) as [F1 Htr2]. specialize (Htr2 Htr1).
  destruct (drain_spec _ _ _ _ _ _ _ HwD HD2) as (m2 & B1 & B2 & B3 & B4 & _).
  destruct (drain_flows _ _ _ _ _ _ _ HD2) as [F2 Htr3]. specialize (Htr3 Htr2).
  specialize (A4 eq_refl Htr1). specialize (B4 eq_refl Htr2).
  rewrite A4 in A1. rewrite B4 in B1. simpl in A1, B1. subst m1 m2.
  destruct (SRem ws x w3) as [sr w4] eqn:HS.
  destruct (SRem_inv _ _ _ _ _ HS) as (Hs4 & _ & _ & F4 & Hrem & Hnn & _).
  assert (∀ k, queue (db w4) k = queue (db w3) k) as Hq4.
  { intros k. eapply flows_frame; [exact F4| |]; tauto. }
  assert (queue (db w1) (wq x) = queue (db w2) (wq x)) as E1.
  { unfold queue. rewrite A3; [done| |done]. intros E. by apply (Haw x x). }
  assert (queue (db w3) (aq x) = []) as E2.
  { unfold queue in *. rewrite B3; [done| |done]. apply Haw. }
  destruct F2 as (_ & _ & _ & F2s & _).
  destruct (F2s P) as [pre Hpre]; [done|].
  destruct F1 as (_ & _ & _ & F1s & _).
  destruct (F1s D) as [mid Hmid]; [by intros ?|].
  assert (∀ w5, db w5 = db w4 → replyErr sr = None →
    queue (db w5) (aq x) = [] ∧ queue (db w5) (wq x) = []
    ∧ (x ∉ members (db w5) ws)
    ∧ (∃ pre, queue (db w5) P = pre ++ queue (db w) (aq x) ++ queue (db w) P)
    ∧ (∃ mid, queue (db w5) D = queue (db w) (wq x) ++ mid ++ queue (db w) D)) as Hfin.
  { intros w5 -> Hr. rewrite !Hq4. split_and!; [done|done|by apply Hrem| |].
    - exists pre. by rewrite Hpre, A2, Hd1.
    - exists mid. by rewrite B2, Hmid, <- E1, Hd1. }
  destruct (replyErr sr) as [[]|] eqn:Hsr; try done.
  - by destruct (Hnn Htr3).
  - destruct (ctxDone w4) as [[] w5] eqn:HC; [done|]. intros [= <-].
    apply Hfin; [|done]. by destruct (ctxDone_inv _ _ _ HC) as (? & _).
Qed.

Lemma cleanWorkers_reclaims fuel ws P D l w w' x :
  well_named aq wq P D →
  truthful w → x ∈ l → notalive hb (db w) x →
  clean_workers (defaultEngine fuel) ws P D l w = Some (None, w') →
  queue (db w') (aq x) = [] ∧ queue (db w') (wq x) = []
  ∧ (x ∉ members (db w') ws)
  ∧ (∃ pre post, queue (db w') P = pre ++ queue (db w) (aq x) ++ post)
  ∧ (∃ pre post, queue (db w') D = pre ++ queue (db w) (wq x) ++ post).
Proof.
  intros Hnm. pose proof Hnm as (Hia & Hiw & Haw & Hg).
  revert w. induction l as [|y rest IH]; intros w Htr Hin Hdead Hrun.
  { by apply elem_of_nil in Hin. }
  destruct (cleanWorkers_cons_nil _ _ _ _ _ _ _ _ Hrun) as (w1 & HW & Hrest).
  destruct (cleanWorker_flows _ _ _ _ _ _ _ _ HW Htr) as [Htr1 Hf1].
  destruct (decide (y = x)) as [->|Hne].
  - destruct (cleanWorker_reclaims _ _ _ _ _ _ _ Hnm Htr Hdead HW)
      as (Q1 & Q2 & Q3 & [pre Q4] & [mid Q5]).
    destruct (cleanWorkers_flows _ _ _ _ _ _ _ _ Hrest Htr1)
      as [_ (_ & A2 & _ & A4 & A5)].
    destruct (Hg x) as (HaP & HaD & HwP & HwD).
    split_and!.
    + destruct (A5 (aq x)) as [suf E]; [by intros [|]|].
      rewrite Q1 in E. symmetry in E. by apply app_eq_nil in E as [? _].
    + destruct (A5 (wq x)) as [suf E]; [by intros [|]|].
      rewrite Q2 in E. symmetry in E. by apply app_eq_nil in E as [? _].
    + intros Hm. by apply Q3, A2.
    + destruct (A4 P) as [pre' E].
      { intros (z & _ & _ & [E|E]); by destruct (Hg z) as (? & ? & ? & ?). }
      exists (pre' ++ pre), (queue (db w) P). by rewrite E, Q4, <- app_assoc.
    + destruct (A4 D) as [pre' E].
      { intros (z & _ & _ & [E|E]); by destruct (Hg z) as (? & ? & ? & ?). }
      exists pre', (mid ++ queue (db w) D). by rewrite E, Q5.
  - apply elem_of_cons in Hin as [?|Hin]; [congruence|].
    destruct (Hg x) as (HaP & HaD & HwP & HwD).
    assert (queue (db w1) (aq x) = queue (db w) (aq x)) as E1.
    { eapply flows_frame; [exact Hf1| |].
      - intros [_ [E|E]]; [by apply Hia in E|by apply Haw in E].
      - by intros [|]. }
    assert (queue (db w1) (wq x) = queue (db w) (wq x)) as E2.
    { eapply flows_frame; [exact Hf1| |].
      - intros [_ [E|E]]; [symmetry in E; by apply Haw in E|by apply Hiw in E].
      - by intros [|]. }
    rewrite <- E1, <- E2. apply IH; try done.
    destruct Hf1 as (Hstr & _). intros v Hv. apply (Hdead v). by apply Hstr.
Qed.

(** C1. After a sweep that returns [nil], a worker that was in the set
    with no heartbeat key has both queues empty and is out of the set; the
    pending queue holds what its active queue held and the deferred queue
    what its watched queue held, each as one block in the old order. *)
Theorem clean_reclaims_dead_worker (fuel : nat) (ws P D workerID : string)
    (w w' : World) :
  well_named aq wq P D →
  truthful w →
  workerID ∈ members (db w) ws →
  db w !! hb workerID = None →
  default_clean (defaultEngine fuel) ws P D w = Some (None, w') →
  (∃ pre post, queue (db w') P = pre ++ queue (db w) (aq workerID) ++ post)
  ∧ (∃ pre post, queue (db w') D = pre ++ queue (db w) (wq workerID) ++ post)
  ∧ (∀ t, t ∈ queue (db w) (aq workerID) → t ∈ queue (db w') P)
  ∧ (∀ t, t ∈ queue (db w) (wq workerID) → t ∈ queue (db w') D)
  ∧ queue (db w') (aq workerID) = []
  ∧ queue (db w') (wq workerID) = []
  ∧ workerID ∉ members (db w') ws.
Proof.
  intros Hnm Htr Hin Hhb. unfold defaultClean.
  destruct (SMembers ws w) as [sm w1] eqn:HS.
  destruct (SMembers_inv _ _ _ _ HS) as (Hd1 & Hs1 & _ & _ & Hl & Hnn).
  pose proof (truthful_tail _ _ Hs1 Htr) as Htr1.
  destruct sm as [l|err].
  2:{ destruct err; try done. by destruct (Hnn Htr). }
  intros Hrun.
  destruct (cleanWorkers_reclaims fuel ws P D l w1 w' workerID)
    as (Q1 & Q2 & Q3 & [pre [post Q4]] & [pre' [post' Q5]]); try done.
  { by apply (Hl l eq_refl). }
  { intros v. by rewrite Hd1, Hhb. }
  rewrite Hd1 in Q4, Q5. split_and!; eauto.
  - intros t Ht. rewrite Q4. set_solver.
  - intros t Ht. rewrite Q5. set_solver.
Qed.

(** ** A sweep after a sweep *)

Lemma cleanWorker_settled fuel ws P D x w w' :
  truthful w →
  clean_worker (defaultEngine fuel) ws P D x w = Some (Next, w') →
  (∃ v, db w' !! hb x = Some (VStr v)) ∨ x ∉ members (db w') ws.
Proof.
  intros Htr. unfold cleanWorker.
  destruct (Get (hb x) w) as [g w1] eqn:HG.
  destruct (Get_inv _ _ _ _ HG) as (Hd1 & Hs1 & _ & _ & Hok & _).
  pose proof (truthful_tail _ _ Hs1 Htr) as Htr1.
  destruct g as [v|err]; simpl.
  { destruct (ctxDone w1) as [[] w5] eqn:HC; [done|]. intros [= <-].
    destruct (ctxDone_inv _ _ _ HC) as (Hd & _). left. exists v.
    rewrite Hd, Hd1. by apply Hok. }
  destruct err; try done.
  destruct (defaultCleanWorkerQueue fuel x (aq x) P w1) as [[[err|] w2]|] eqn:HD1;
    try done.
  destruct (defaultCleanWorkerQueue fuel x (wq x) D w2) as [[[err|] w3]|] eqn:HD2;
    try done.
  destruct (drain_flows _ _ _ _ _ _ _ HD1) as [_ Htr2]. specialize (Htr2 Htr1).
  destruct (drain_flows _ _ _ _ _ _ _ HD2) as [_ Htr3]. specialize (Htr3 Htr2).
  destruct (SRem ws x w3) as [sr w4] eqn:HS.
  destruct (SRem_inv _ _ _ _ _ HS) as (_ & _ & _ & _ & Hrem & Hnn & _).
  destruct (replyErr sr) as [[]|] eqn:Hsr; try done.
  - by destruct (Hnn Htr3).
  - destruct (ctxDone w4) as [[] w5] eqn:HC; [done|]. intros [= <-].
    destruct (ctxDone_inv _ _ _ HC) as (Hd & _). right. rewrite Hd. by apply Hrem.
Qed.

Lemma cleanWorkers_settled fuel ws P D l w w' :
  truthful w →
  clean_workers (defaultEngine fuel) ws P D l w = Some (None, w') →
  ∀ x, x ∈ l → (∃ v, db w' !! hb x = Some (VStr v)) ∨ x ∉ members (db w') ws.
Proof.
  revert w. induction l as [|y rest IH]; intros w Htr Hrun x Hin.
  { by apply elem_of_nil in Hin. }
  destruct (cleanWorkers_cons_nil _ _ _ _ _ _ _ _ Hrun) as (w1 & HW & Hrest).
  destruct (cleanWorker_flows _ _ _ _ _ _ _ _ HW Htr) as [Htr1 _].
  apply elem_of_cons in Hin as [->|Hin]; [|by eapply IH].
  destruct (cleanWorkers_flows _ _ _ _ _ _ _ _ Hrest Htr1) as [_ (A1 & A2 & _)].
  destruct (cleanWorker_settled _ _ _ _ _ _ _ Htr HW) as [[v Hv]|Hout].
  - left. exists v. by apply A1.
  - right. intros Hm. by apply Hout, A2.
Qed.

(** A sweep over live workers only reads. *)
Lemma cleanWorkers_quiet e ws P D l w :
  truthful w →
  (∀ x, x ∈ l → ∃ v, db w !! hb x = Some (VStr v)) →
  ∃ r w', clean_workers e ws P D l w = Some (r, w')
    ∧ db w' = db w
    ∧ ∃ new, trace w' = new ++ trace w ∧ Forall is_read new.
Proof.
  revert w. induction l as [|y rest IH]; intros w Htr Hlive.
  { exists None, w. split_and!; [done..|]. by exists []. }
  simpl. unfold cleanWorker.
  destruct (Hlive y) as [v Hv]; [left|].
  destruct (Get (hb y) w) as [g w1] eqn:HG.
  destruct (Get_inv _ _ _ _ HG) as (Hd1 & Hs1 & _ & Ht1 & _ & _ & Hcase).
  pose proof (truthful_tail _ _ Hs1 Htr) as Htr1.
  assert (Forall is_read [(GET (hb y), replyErr g)]) as Hread.
  { by apply Forall_singleton. }
  destruct (Hcase v Hv) as [->|(err & Hh & ->)]; simpl.
  - destruct (ctxDone w1) as [b w2] eqn:HC.
    destruct (ctxDone_inv _ _ _ HC) as (Hd2 & Hs2 & Ht2 & _).
    destruct b.
    { eexists _, _. split_and!; [done|congruence|].
      eexists. split; [|exact Hread]. by rewrite Ht2, Ht1. }
    destruct (IH w2) as (r & w' & Hrun & Hd & new & Ht & Hall).
    { unfold truthful. by rewrite Hs2. }
    { intros x Hx. rewrite Hd2, Hd1. apply Hlive. by right. }
    exists r, w'. split_and!; [done|congruence|].
    exists (new ++ [(GET (hb y), None)]). split.
    + by rewrite Ht, Ht2, Ht1, <- app_assoc.
    + apply Forall_app. split; [done|exact Hread].
  - pose proof (truthful_head _ _ Htr Hh) as Hne.
    destruct err; try done;
      (eexists _, _; split_and!; [done|done|];
       eexists; split; [|exact Hread]; by rewrite Ht1).
Qed.

(** C5. After a sweep that returned [nil], a second sweep on the same
    keyspace returns, leaves the keyspace as the first one left it, and
    issues nothing but SMEMBERS and GET: no move and no removal. *)
Theorem clean_twice_is_clean_once (fuel : nat) (e2 : engine) (ws P D : string)
    (w w1 w2 : World) :
  truthful w →
  default_clean (defaultEngine fuel) ws P D w = Some (None, w1) →
  db w2 = db w1 → truthful w2 →
  ∃ r w3, default_clean e2 ws P D w2 = Some (r, w3)
    ∧ db w3 = db w1
    ∧ ∃ new, trace w3 = new ++ trace w2 ∧ Forall is_read new.
Proof.
  intros Htr Hrun1 Hdb Htr2.
  assert (∀ x, x ∈ members (db w1) ws → ∃ v, db w1 !! hb x = Some (VStr v)) as Hq.
  { revert Hrun1. unfold defaultClean.
    destruct (SMembers ws w) as [sm w0] eqn:HS.
    destruct (SMembers_inv _ _ _ _ HS) as (Hd0 & Hs0 & _ & _ & Hl & Hnn).
    pose proof (truthful_tail _ _ Hs0 Htr) as Htr0.
    destruct sm as [l|err].
    2:{ destruct err; try done. by destruct (Hnn Htr). }
    intros Hrun x Hx.
    destruct (cleanWorkers_flows _ _ _ _ _ _ _ _ Hrun Htr0) as [_ (_ & A2 & _)].
    destruct (cleanWorkers_settled _ _ _ _ _ _ _ Htr0 Hrun x) as [?|?]; try done.
    apply (Hl l eq_refl). rewrite <- Hd0. by apply A2. }
  unfold defaultClean.
  destruct (SMembers ws w2) as [sm w0] eqn:HS.
  destruct (SMembers_inv _ _ _ _ HS) as (Hd0 & Hs0 & _ & Ht0 & Hl & Hnn).
  pose proof (truthful_tail _ _ Hs0 Htr2) as Htr0.
  assert (Forall is_read [(SMEMBERS ws, replyErr sm)]) as Hread.
  { by apply Forall_singleton. }
  destruct sm as [l|err].
  2:{ destruct err; (eexists _, _; split_and!; [done|congruence|];
        eexists; split; [|exact Hread]; by rewrite Ht0). }
  destruct (cleanWorkers_quiet e2 ws P D l w0 Htr0) as (r & w3 & Hrun & Hd & new & Ht & Hall).
  { intros x Hx. rewrite Hd0, Hdb. apply Hq. rewrite <- Hdb. by apply (Hl l eq_refl). }
  exists r, w3. split_and!; [done|congruence|].
  exists (new ++ [(SMEMBERS ws, None)]). split.
  - by rewrite Ht, Ht0, <- app_assoc.
  - apply Forall_app. split; [done|exact Hread].
Qed.

(** ** Errors during the sweep *)

Lemma cleanWorkers_app e ws P D pre rest w w1 :
  clean_workers e ws P D pre w = Some (None, w1) →
  clean_workers e ws P D (pre ++ rest) w = clean_workers e ws P D rest w1.
Proof.
  revert w. induction pre as [|y pre IH]; intros w Hrun.
  { simpl in Hrun. by simplify_eq. }
  destruct (cleanWorkers_cons_nil _ _ _ _ _ _ _ _ Hrun) as (w0 & HW & Hrest).
  simpl. rewrite HW. by apply IH.
Qed.

(** C4. When the workers before [workerID] in the snapshot have been
    passed and the GET of its heartbeat key fails with anything but
    [redis.Nil], the sweep returns at once an error carrying the text of
    that failure: the world it returns is the one the GET left, so no
    move, no removal and no command for a later worker was issued. *)
Theorem clean_aborts_on_health_check_error (e : engine) (ws P D workerID : string)
    (pre post : list string) (w w0 w1 w2 : World) (err : error) :
  SMembers ws w = (Ok (pre ++ workerID :: post), w0) →
  clean_workers e ws P D pre w0 = Some (None, w1) →
  Get (hb workerID) w1 = (Err err, w2) →
  err ≠ RedisNil →
  default_clean e ws P D w
    = Some (Some (Errorf ("error checking health of worker: " +:+ dquote
                          +:+ workerID +:+ dquote +:+ ": " +:+ errString err)), w2)
  ∧ db w2 = db w1
  ∧ trace w2 = (GET (hb workerID), Some err) :: trace w1.
Proof.
  intros HS Hpre HG Hne.
  destruct (Get_inv _ _ _ _ HG) as (Hd & _ & _ & Ht & _).
  split_and!; [|done|done].
  unfold defaultClean. rewrite HS.
  rewrite (cleanWorkers_app _ _ _ _ _ _ _ _ Hpre). simpl.
  unfold cleanWorker. rewrite HG. by destruct err.
Qed.


End CleanerFacts.

(** ** The record store *)

Section StoreFacts.

Context `{ServicePkg}.

Lemma Get_absent k w :
  answers w → db w !! k = None →
  ∃ w1, Get k w = (Err RedisNil, w1) ∧ db w1 = db w
    ∧ trace w1 = (GET k, Some RedisNil) :: trace w.
Proof.
  intros Ha Hk. destruct (Get k w) as [r w1] eqn:HG. exists w1.
  destruct (Get_inv _ _ _ _ HG) as (Hd & _ & _ & Ht & _).
  assert (r = Err RedisNil) as ->; [|by rewrite Ht].
  revert HG. unfold Get. intros Hcall.
  pose proof (call_cases (GET k) (exec_get k) w) as Hc.
  rewrite Hcall in Hc. simpl in Hc.
  destruct Hc as [(e & Hh & _)|(_ & -> & _)]; [by destruct (Ha e)|].
  by apply exec_get_Nil.
Qed.

Lemma Get_stored k v w :
  answers w → db w !! k = Some (VStr v) →
  ∃ w1, Get k w = (Ok v, w1) ∧ db w1 = db w
    ∧ trace w1 = (GET k, None) :: trace w.
Proof.
  intros Ha Hk. destruct (Get k w) as [r w1] eqn:HG. exists w1.
  destruct (Get_inv _ _ _ _ HG) as (Hd & _ & _ & Ht & _ & _ & Hcase).
  destruct (Hcase v Hk) as [->|(e & Hh & _)]; [by rewrite Ht|by destruct (Ha e)].
Qed.

(** C8. For an ID with no record under either key, when the client
    answers from the keyspace: [GetInstance] and [GetBinding] return the
    zero value, [false] and [nil]; [DeleteInstance] and [DeleteBinding]
    return [false] and [nil]; each leaves the keyspace as it was and has
    issued a single GET. *)
Theorem missing_record_is_not_an_error (s : store) (id : string) (w : World) :
  answers w →
  db w !! getInstanceKey id = None →
  db w !! getBindingKey id = None →
  ((GetInstance s id w).1 = (zeroInstance, false, None)
   ∧ db (GetInstance s id w).2 = db w
   ∧ trace (GetInstance s id w).2 = (GET (getInstanceKey id), Some RedisNil) :: trace w)
  ∧ ((GetBinding s id w).1 = (zeroBinding, false, None)
     ∧ db (GetBinding s id w).2 = db w
     ∧ trace (GetBinding s id w).2 = (GET (getBindingKey id), Some RedisNil) :: trace w)
  ∧ ((DeleteInstance id w).1 = (false, None)
     ∧ db (DeleteInstance id w).2 = db w
     ∧ trace (DeleteInstance id w).2 = (GET (getInstanceKey id), Some RedisNil) :: trace w)
  ∧ ((DeleteBinding id w).1 = (false, None)
     ∧ db (DeleteBinding id w).2 = db w
     ∧ trace (DeleteBinding id w).2 = (GET (getBindingKey id), Some RedisNil) :: trace w).
Proof.
  intros Ha Hi Hb.
  destruct (Get_absent _ _ Ha Hi) as (wi & HGi & Hdi & Hti).
  destruct (Get_absent _ _ Ha Hb) as (wb & HGb & Hdb & Htb).
  unfold GetInstance, GetBinding, DeleteInstance, DeleteBinding.
  rewrite HGi, HGb. simpl. by split_and!.
Qed.

(** C9. Whenever the client answers: a stored instance that decodes but
    names a service the catalog does not have, or a plan that service does
    not have, makes [GetInstance] return [false] and an error; and,
    independently, a stored binding that decodes but names a service the
    catalog does not have makes [GetBinding] do so.  In both cases the
    keyspace is left as it was and nothing but the GET was issued. *)
Theorem dangling_reference_is_an_error (s : store) (w : World) :
  answers w →
  (∀ (iid ibytes : string) (instance : Instance),
     db w !! getInstanceKey iid = Some (VStr ibytes) →
     NewInstanceFromJSON ibytes None None None (codec s) = (instance, None) →
     (GetService (catalog s) (Instance_ServiceID instance) = None
      ∨ ∃ svc, GetService (catalog s) (Instance_ServiceID instance) = Some svc
               ∧ GetPlan svc (Instance_PlanID instance) = None) →
     ∃ err, (GetInstance s iid w).1 = (instance, false, Some err)
       ∧ db (GetInstance s iid w).2 = db w
       ∧ trace (GetInstance s iid w).2 = (GET (getInstanceKey iid), None) :: trace w)
  ∧ (∀ (bid bbytes : string) (binding : Binding),
       db w !! getBindingKey bid = Some (VStr bbytes) →
       NewBindingFromJSON bbytes None None (codec s) = (binding, None) →
       GetService (catalog s) (Binding_ServiceID binding) = None →
       ∃ err, (GetBinding s bid w).1 = (binding, false, Some err)
         ∧ db (GetBinding s bid w).2 = db w
         ∧ trace (GetBinding s bid w).2 = (GET (getBindingKey bid), None) :: trace w).
Proof.
  intros Ha. split.
  - intros iid ibytes instance Hi Hdi Hcat.
    destruct (Get_stored _ _ _ Ha Hi) as (wi & HGi & Hwi & Hti).
    unfold GetInstance. rewrite HGi, Hdi.
    destruct Hcat as [->|(svc & -> & ->)]; eauto.
  - intros bid bbytes binding Hb Hdb Hsvc.
    destruct (Get_stored _ _ _ Ha Hb) as (wb & HGb & Hwb & Htb).
    unfold GetBinding. rewrite HGb, Hdb, Hsvc. eauto.
Qed.

End StoreFacts.

(** ** The scenario *)

Lemma ex_well_named : well_named ex_aq ex_wq "pending" "deferred".
Proof.
  unfold well_named, ex_aq, ex_wq. split_and!.
  - intros x y E. simpl in E. by simplify_eq.
  - intros x y E. simpl in E. by simplify_eq.
  - intros x y E. simpl in E. by simplify_eq.
  - intros x. simpl. by split_and!.
Qed.

Lemma ex_is_queue (k : string) (l : list string) (d : gmap string value) :
  d !! k = Some (VList l) → is_queue d k.
Proof. intros E v. rewrite E. intros [= <-]. eauto. Qed.

Lemma drainQueue_moves_everything_witness :
  ∃ w', defaultCleanWorkerQueue 3 "w1" (ex_aq "w1") "pending" ex_world = Some (None, w')
    ∧ queue (db w') (ex_aq "w1") = []
    ∧ queue (db w') "pending"
      = queue (db ex_world) (ex_aq "w1") ++ queue (db ex_world) "pending"
    ∧ (∀ k, k ≠ ex_aq "w1" → k ≠ "pending" → db w' !! k = db ex_world !! k)
    ∧ trace w' = (RPOPLPUSH (ex_aq "w1") "pending", Some RedisNil)
                   :: repeat (RPOPLPUSH (ex_aq "w1") "pending", None)
                        (length (queue (db ex_world) (ex_aq "w1")))
                   ++ trace ex_world.
Proof.
  apply (drainQueue_moves_everything 3 "w1" (ex_aq "w1") "pending" ex_world).
  - discriminate.
  - apply (ex_is_queue _ ["t1"; "t2"]). vm_compute. reflexivity.
  - apply (ex_is_queue _ ["p0"]). vm_compute. reflexivity.
  - apply Forall_nil_2.
  - reflexivity.
  - vm_compute. lia.
Defined.

Lemma drainQueue_cancel_whole_moves_witness :
  defaultCleanWorkerQueue 3 "w1" (ex_aq "w1") "pending" ex_cancelled
    = Some (Some CtxErr,
            world_of (defaultCleanWorkerQueue 3 "w1" (ex_aq "w1") "pending" ex_cancelled)
              ex_cancelled)
  ∧ ∃ moved,
      ctx ex_cancelled = Some (length moved)
      ∧ queue (db ex_cancelled) (ex_aq "w1")
        = queue (db (world_of (defaultCleanWorkerQueue 3 "w1" (ex_aq "w1") "pending"
                                 ex_cancelled) ex_cancelled)) (ex_aq "w1") ++ moved
      ∧ queue (db (world_of (defaultCleanWorkerQueue 3 "w1" (ex_aq "w1") "pending"
                               ex_cancelled) ex_cancelled)) "pending"
        = moved ++ queue (db ex_cancelled) "pending"
      ∧ (∀ k, k ≠ ex_aq "w1" → k ≠ "pending" →
           db (world_of (defaultCleanWorkerQueue 3 "w1" (ex_aq "w1") "pending"
                           ex_cancelled) ex_cancelled) !! k = db ex_cancelled !! k)
      ∧ trace (world_of (defaultCleanWorkerQueue 3 "w1" (ex_aq "w1") "pending"
                           ex_cancelled) ex_cancelled)
        = repeat (RPOPLPUSH (ex_aq "w1") "pending", None) (length moved)
          ++ trace ex_cancelled.
Proof.
  assert (defaultCleanWorkerQueue 3 "w1" (ex_aq "w1") "pending" ex_cancelled
    = Some (Some CtxErr,
            world_of (defaultCleanWorkerQueue 3 "w1" (ex_aq "w1") "pending" ex_cancelled)
              ex_cancelled)) as Hrun.
  { vm_compute. reflexivity. }
  split; [exact Hrun|].
  apply (drainQueue_cancel_whole_moves 3 "w1" (ex_aq "w1") "pending" ex_cancelled _).
  - discriminate.
  - exact Hrun.
Defined.

Lemma drainQueue_terminates_witness :
  (∀ w1, cleanWorkerQueueIter "w1" (ex_aq "w1") "pending" ex_world = (Next, w1) →
         S (length (queue (db w1) (ex_aq "w1")))
         = length (queue (db ex_world) (ex_aq "w1")))
  ∧ ∃ r w',
      defaultCleanWorkerQueue 3 "w1" (ex_aq "w1") "pending" ex_world = Some (r, w')
      ∧ (r = None → truthful ex_world →
         trace w' = (RPOPLPUSH (ex_aq "w1") "pending", Some RedisNil)
                      :: repeat (RPOPLPUSH (ex_aq "w1") "pending", None)
                           (length (queue (db ex_world) (ex_aq "w1")))
                      ++ trace ex_world).
Proof.
  apply (drainQueue_terminates 3 "w1" (ex_aq "w1") "pending" ex_world).
  - discriminate.
  - vm_compute. lia.
Defined.

Lemma ex_rotating_step (tr : list (cmd * goerror)) :
  cleanWorkerQueueIter "w1" "q" "q" (ex_rotating tr)
  = (Next, ex_rotating ((RPOPLPUSH "q" "q", None) :: tr)).
Proof.
  unfold cleanWorkerQueueIter, ex_rotating, RPopLPush, call. simpl.
  assert (exec_rpoplpush "q" "q" (<["q" := VList ["t"]]> ∅)
          = (Ok "t", <["q" := VList ["t"]]> ∅)) as -> by (vm_compute; reflexivity).
  reflexivity.
Qed.

Lemma ex_rotating_loops (fuel : nat) (tr : list (cmd * goerror)) :
  defaultCleanWorkerQueue fuel "w1" "q" "q" (ex_rotating tr) = None.
Proof.
  revert tr. induction fuel as [|fuel IH]; intros tr; [done|].
  simpl. rewrite ex_rotating_step. apply IH.
Qed.

(** C10 as stated does not hold: draining the one-element list at key [q]
    into itself never returns, although no error and no cancellation
    occurs; every pass moves the element back to where it was. *)
Lemma drainQueue_into_itself_never_returns :
  ¬ ∃ fuel r w',
      defaultCleanWorkerQueue fuel "w1" "q" "q" (ex_rotating []) = Some (r, w').
Proof. intros (fuel & r & w' & Hrun). by rewrite ex_rotating_loops in Hrun. Qed.

Lemma ex_swept_run :
  defaultClean ex_hb ex_aq ex_wq (defaultEngine 3) "workers" "pending" "deferred" ex_world
  = Some (None, ex_swept).
Proof. vm_compute. reflexivity. Qed.

Lemma clean_reclaims_dead_worker_witness :
  defaultClean ex_hb ex_aq ex_wq (defaultEngine 3) "workers" "pending" "deferred" ex_world
    = Some (None, ex_swept)
  ∧ (∃ pre post,
       queue (db ex_swept) "pending" = pre ++ queue (db ex_world) (ex_aq "w1") ++ post)
  ∧ (∃ pre post,
       queue (db ex_swept) "deferred" = pre ++ queue (db ex_world) (ex_wq "w1") ++ post)
  ∧ (∀ t, t ∈ queue (db ex_world) (ex_aq "w1") → t ∈ queue (db ex_swept) "pending")
  ∧ (∀ t, t ∈ queue (db ex_world) (ex_wq "w1") → t ∈ queue (db ex_swept) "deferred")
  ∧ queue (db ex_swept) (ex_aq "w1") = []
  ∧ queue (db ex_swept) (ex_wq "w1") = []
  ∧ "w1" ∉ members (db ex_swept) "workers".
Proof.
  split; [exact ex_swept_run|].
  apply (clean_reclaims_dead_worker ex_hb ex_aq ex_wq 3
           "workers" "pending" "deferred" "w1" ex_world ex_swept).
  - exact ex_well_named.
  - apply Forall_nil_2.
  - apply (bool_decide_unpack _). vm_compute. exact I.
  - vm_compute. reflexivity.
  - exact ex_swept_run.
Defined.

Lemma clean_leaves_live_workers_alone_witness :
  queue (db ex_swept) (ex_aq "w2") = queue (db ex_world) (ex_aq "w2")
  ∧ queue (db ex_swept) (ex_wq "w2") = queue (db ex_world) (ex_wq "w2")
  ∧ "w2" ∈ members (db ex_swept) "workers"
  ∧ db ex_swept !! ex_hb "w2" = Some (VStr "beat").
Proof.
  apply (clean_leaves_live_workers_alone ex_hb ex_aq ex_wq 3
           "workers" "pending" "deferred" "w2" "beat" ex_world ex_swept None).
  - exact ex_well_named.
  - apply Forall_nil_2.
  - apply (bool_decide_unpack _). vm_compute. exact I.
  - vm_compute. reflexivity.
  - exact ex_swept_run.
Defined.

Lemma clean_twice_is_clean_once_witness :
  ∃ r w3,
    defaultClean ex_hb ex_aq ex_wq (defaultEngine 0) "workers" "pending" "deferred" ex_swept
      = Some (r, w3)
    ∧ db w3 = db ex_swept
    ∧ ∃ new, trace w3 = new ++ trace ex_swept ∧ Forall is_read new.
Proof.
  apply (clean_twice_is_clean_once ex_hb ex_aq ex_wq 3 (defaultEngine 0)
           "workers" "pending" "deferred" ex_world ex_swept ex_swept).
  - apply Forall_nil_2.
  - exact ex_swept_run.
  - reflexivity.
  - vm_compute. apply Forall_nil_2.
Defined.

Lemma clean_aborts_on_health_check_error_witness :
  defaultClean ex_hb ex_aq ex_wq (defaultEngine 3) "workers" "pending" "deferred" ex_faulty
    = Some (Some (Errorf ("error checking health of worker: " +:+ dquote
                          +:+ "w2" +:+ dquote +:+ ": "
                          +:+ errString (StoreErr "i/o timeout"))),
            (Get (ex_hb "w2")
               (world_of (cleanWorkers ex_hb ex_aq ex_wq (defaultEngine 3)
                            "workers" "pending" "deferred" ["w1"]
                            (SMembers "workers" ex_faulty).2) ex_faulty)).2)
  ∧ db (Get (ex_hb "w2")
          (world_of (cleanWorkers ex_hb ex_aq ex_wq (defaultEngine 3)
                       "workers" "pending" "deferred" ["w1"]
                       (SMembers "workers" ex_faulty).2) ex_faulty)).2
    = db (world_of (cleanWorkers ex_hb ex_aq ex_wq (defaultEngine 3)
                      "workers" "pending" "deferred" ["w1"]
                      (SMembers "workers" ex_faulty).2) ex_faulty)
  ∧ trace (Get (ex_hb "w2")
             (world_of (cleanWorkers ex_hb ex_aq ex_wq (defaultEngine 3)
                          "workers" "pending" "deferred" ["w1"]
                          (SMembers "workers" ex_faulty).2) ex_faulty)).2
    = (GET (ex_hb "w2"), Some (StoreErr "i/o timeout"))
        :: trace (world_of (cleanWorkers ex_hb ex_aq ex_wq (defaultEngine 3)
                              "workers" "pending" "deferred" ["w1"]
                              (SMembers "workers" ex_faulty).2) ex_faulty).
Proof.
  apply (clean_aborts_on_health_check_error ex_hb ex_aq ex_wq (defaultEngine 3)
           "workers" "pending" "deferred" "w2" ["w1"] [] ex_faulty
           (SMembers "workers" ex_faulty).2).
  - vm_compute. reflexivity.
  - vm_compute. reflexivity.
  - vm_compute. reflexivity.
  - discriminate.
Defined.


Lemma missing_record_is_not_an_error_witness :
  ((@GetInstance ex_pkg ex_store "i2" ex_records).1 = (@zeroInstance ex_pkg, false, None)
   ∧ db (@GetInstance ex_pkg ex_store "i2" ex_records).2 = db ex_records
   ∧ trace (@GetInstance ex_pkg ex_store "i2" ex_records).2
     = (GET (getInstanceKey "i2"), Some RedisNil) :: trace ex_records)
  ∧ ((@GetBinding ex_pkg ex_store "i2" ex_records).1 = (@zeroBinding ex_pkg, false, None)
     ∧ db (@GetBinding ex_pkg ex_store "i2" ex_records).2 = db ex_records
     ∧ trace (@GetBinding ex_pkg ex_store "i2" ex_records).2
       = (GET (getBindingKey "i2"), Some RedisNil) :: trace ex_records)
  ∧ ((DeleteInstance "i2" ex_records).1 = (false, None)
     ∧ db (DeleteInstance "i2" ex_records).2 = db ex_records
     ∧ trace (DeleteInstance "i2" ex_records).2
       = (GET (getInstanceKey "i2"), Some RedisNil) :: trace ex_records)
  ∧ ((DeleteBinding "i2" ex_records).1 = (false, None)
     ∧ db (DeleteBinding "i2" ex_records).2 = db ex_records
     ∧ trace (DeleteBinding "i2" ex_records).2
       = (GET (getBindingKey "i2"), Some RedisNil) :: trace ex_records).
Proof.
  apply (@missing_record_is_not_an_error ex_pkg ex_store "i2" ex_records).
  - intros e. discriminate.
  - vm_compute. reflexivity.
  - vm_compute. reflexivity.
Defined.

Lemma dangling_reference_is_an_error_witness :
  (∃ err, (@GetInstance ex_pkg ex_store "i1" ex_instance_only).1
            = (("svc-x", None, None) : @Instance ex_pkg, false, Some err)
     ∧ db (@GetInstance ex_pkg ex_store "i1" ex_instance_only).2 = db ex_instance_only
     ∧ trace (@GetInstance ex_pkg ex_store "i1" ex_instance_only).2
       = (GET (getInstanceKey "i1"), None) :: trace ex_instance_only)
  ∧ (∃ err, (@GetBinding ex_pkg ex_store "b1" ex_binding_only).1
              = ("svc-y" : @Binding ex_pkg, false, Some err)
       ∧ db (@GetBinding ex_pkg ex_store "b1" ex_binding_only).2 = db ex_binding_only
       ∧ trace (@GetBinding ex_pkg ex_store "b1" ex_binding_only).2
         = (GET (getBindingKey "b1"), None) :: trace ex_binding_only).
Proof.
  split.
  - apply (proj1 (@dangling_reference_is_an_error ex_pkg ex_store ex_instance_only
                    (λ e, ltac:(discriminate)))
             "i1" "svc-x" ("svc-x", None, None)).
    + vm_compute. reflexivity.
    + reflexivity.
    + left. vm_compute. reflexivity.
  - apply (proj2 (@dangling_reference_is_an_error ex_pkg ex_store ex_binding_only
                    (λ e, ltac:(discriminate)))
             "b1" "svc-y" "svc-y").
    + vm_compute. reflexivity.
    + reflexivity.
    + vm_compute. reflexivity.
Defined.


(** * Further properties of the cleaner *)

(** ** No task is lost or duplicated *)

Lemma tasks_insert_fresh t k v (d : gmap string value) :
  d !! k = None → tasks t (<[k := v]> d) = occ t v + tasks t d.
Proof.
  intros Hk. unfold tasks.
  apply (map_fold_insert_L (λ _ v n, occ t v + n)); [|done].
  intros. lia.
Qed.

Lemma tasks_delete t k v (d : gmap string value) :
  d !! k = Some v → tasks t d = occ t v + tasks t (delete k d).
Proof.
  intros Hk. rewrite <- (insert_delete_id d k v Hk) at 1.
  apply tasks_insert_fresh, lookup_delete_eq.
Qed.

(** Replacing whatever a key holds. *)
Lemma tasks_insert t k v (d : gmap string value) :
  tasks t (<[k := v]> d) + from_option (occ t) 0 (d !! k) = occ t v + tasks t d.
Proof.
  destruct (d !! k) as [v0|] eqn:Hk; simpl.
  - rewrite <- insert_delete_eq, tasks_insert_fresh by apply lookup_delete_eq.
    rewrite (tasks_delete t k v0 d Hk). lia.
  - rewrite tasks_insert_fresh by done. lia.
Qed.

Lemma tasks_remove t k (d : gmap string value) :
  tasks t (delete k d) + from_option (occ t) 0 (d !! k) = tasks t d.
Proof.
  destruct (d !! k) as [v0|] eqn:Hk; simpl.
  - rewrite (tasks_delete t k v0 d Hk). lia.
  - rewrite delete_id by done. lia.
Qed.

Lemma tasks_store_list t k l (d : gmap string value) :
  tasks t (store_list k l d) + from_option (occ t) 0 (d !! k)
  = occ t (VList l) + tasks t d.
Proof.
  unfold store_list. destruct l as [|x l].
  - rewrite tasks_remove. simpl. lia.
  - apply tasks_insert.
Qed.

Lemma occ_queue t (d : gmap string value) k :
  is_queue d k → from_option (occ t) 0 (d !! k) = occ t (VList (queue d k)).
Proof.
  unfold is_queue, queue. intros Hq. destruct (d !! k) as [v|]; [|done].
  by destruct (Hq v eq_refl) as [l ->].
Qed.

Lemma exec_rpoplpush_tasks t src dst (d : gmap string value) :
  tasks t (exec_rpoplpush src dst d).2 = tasks t d.
Proof.
  unfold exec_rpoplpush.
  destruct (d !! src) as [[v|l|s]|] eqn:Hsrc; simpl; try done.
  destruct (last l) as [x|] eqn:Hl; simpl; [|done].
  apply last_Some in Hl as [l' ->]. rewrite removelast_last.
  assert (is_queue d dst →
    tasks t (<[dst:=VList (x :: queue (store_list src l' d) dst)]> (store_list src l' d))
    = tasks t d) as Hmove.
  { intros Hq.
    pose proof (tasks_insert t dst (VList (x :: queue (store_list src l' d) dst))
                  (store_list src l' d)) as H1.
    pose proof (tasks_store_list t src l' d) as H2.
    rewrite Hsrc in H2. simpl in H1, H2.
    rewrite filter_app, length_app in H2.
    rewrite occ_queue in H1.
    2:{ intros v. rewrite lookup_store_list. case_decide; [|apply Hq].
        destruct l'; [done|]. intros [= <-]. eauto. }
    simpl in H1. rewrite filter_cons in H1. rewrite filter_cons, filter_nil in H2.
    destruct (decide (x = t)); simpl in *; lia. }
  destruct (d !! dst) as [[v|l0|s]|] eqn:Hdst; simpl; try done; apply Hmove.
  - intros v. rewrite Hdst. intros [= <-]. eauto.
  - intros v. by rewrite Hdst.
Qed.

Lemma exec_srem_tasks t k m (d : gmap string value) :
  tasks t (exec_srem k m d).2 = tasks t d.
Proof.
  unfold exec_srem. destruct (d !! k) as [[v|l|s]|] eqn:Hk; simpl; try done.
  case_decide; simpl; [|done]. unfold store_set. case_decide.
  - pose proof (tasks_remove t k d) as H1. rewrite Hk in H1. simpl in H1. lia.
  - pose proof (tasks_insert t k (VSet (s ∖ {[m]})) d) as H1.
    rewrite Hk in H1. simpl in H1. lia.
Qed.

Lemma call_db {A : Type} c (exec : gmap string value → reply A * gmap string value) w :
  db (call c exec w).2 = db w ∨ db (call c exec w).2 = (exec (db w)).2.
Proof. destruct (call_cases c exec w) as [(e & _ & _ & ?)|(_ & _ & ?)]; auto. Qed.

Lemma drain_tasks t fuel workerID src dst w r w' :
  defaultCleanWorkerQueue fuel workerID src dst w = Some (r, w') →
  tasks t (db w') = tasks t (db w).
Proof.
  revert w. induction fuel as [|fuel IH]; intros w; simpl; [done|].
  destruct (cleanWorkerQueueIter workerID src dst w) as [[|r0] w1] eqn:Hit.
  - intros Hrun. destruct (iter_Next _ _ _ _ _ Hit) as (x & _ & Hd & _).
    rewrite (IH _ Hrun), Hd. apply exec_rpoplpush_tasks.
  - intros [= <- <-]. destruct (iter_Return _ _ _ _ _ _ Hit) as (Hd & _).
    by rewrite Hd.
Qed.

(** X1. However a drain between two different keys ends, with [nil], with
    the cancellation error or with a store error, the source followed by the
    destination reads as before: what was not moved is still in the source,
    in order, and what was moved heads the destination, in order.  No other
    key has changed. *)
Theorem drainQueue_conserves (fuel : nat) (workerID src dst : string)
    (w w' : World) (r : goerror) :
  src ≠ dst →
  defaultCleanWorkerQueue fuel workerID src dst w = Some (r, w') →
  queue (db w') src ++ queue (db w') dst = queue (db w) src ++ queue (db w) dst
  ∧ (length (queue (db w') src) ≤ length (queue (db w) src))%nat
  ∧ ∀ k, k ≠ src → k ≠ dst → db w' !! k = db w !! k.
Proof.
  intros Hne Hrun.
  destruct (drain_spec _ _ _ _ _ _ _ Hne Hrun) as (moved & H1 & H2 & H3 & _).
  split_and!; [|rewrite H1, length_app; lia|done].
  by rewrite H1, H2, app_assoc.
Qed.

Section CleanerMore.

Variable getHeartbeatKey : string → string.
Variable getActiveTaskQueueName : string → string.
Variable getWatchedTaskQueueName : string → string.

Local Abbreviation hb := getHeartbeatKey.
Local Abbreviation aq := getActiveTaskQueueName.
Local Abbreviation wq := getWatchedTaskQueueName.
Local Abbreviation clean_worker :=
  (cleanWorker getHeartbeatKey getActiveTaskQueueName getWatchedTaskQueueName).
Local Abbreviation clean_workers :=
  (cleanWorkers getHeartbeatKey getActiveTaskQueueName getWatchedTaskQueueName).
Local Abbreviation default_clean :=
  (defaultClean getHeartbeatKey getActiveTaskQueueName getWatchedTaskQueueName).

Lemma cleanWorker_tasks t fuel ws P D x w f w' :
  clean_worker (defaultEngine fuel) ws P D x w = Some (f, w') →
  tasks t (db w') = tasks t (db w).
Proof.
  unfold cleanWorker.
  destruct (Get (hb x) w) as [g w1] eqn:HG.
  destruct (Get_inv _ _ _ _ HG) as (Hd1 & _).
  assert (∀ w0 b w5, ctxDone w0 = (b, w5) → db w5 = db w0) as Hskip.
  { intros w0 b w5 Hc. by destruct (ctxDone_inv _ _ _ Hc) as (? & _). }
  destruct g as [v|err]; simpl.
  { destruct (ctxDone w1) as [b w5] eqn:Hc. rewrite <- Hd1, <- (Hskip _ _ _ Hc).
    destruct b; by intros [= _ <-]. }
  destruct err; try (intros [= _ <-]; by rewrite Hd1).
  simpl.
  destruct (defaultCleanWorkerQueue fuel x (aq x) P w1) as [[r2 w2]|] eqn:HD1; [|done].
  pose proof (drain_tasks t _ _ _ _ _ _ _ HD1) as T1. rewrite Hd1 in T1.
  destruct r2 as [err|]; [intros [= _ <-]; done|].
  destruct (defaultCleanWorkerQueue fuel x (wq x) D w2) as [[r3 w3]|] eqn:HD2; [|done].
  pose proof (drain_tasks t _ _ _ _ _ _ _ HD2) as T2.
  destruct r3 as [err|]; [intros [= _ <-]; congruence|].
  destruct (SRem ws x w3) as [sr w4] eqn:HS.
  assert (tasks t (db w4) = tasks t (db w3)) as T4.
  { pose proof (call_db (SREM ws x) (exec_srem ws x) w3) as Hc.
    unfold SRem in HS. rewrite HS in Hc. simpl in Hc.
    destruct Hc as [->| ->]; [done|apply exec_srem_tasks]. }
  destruct (replyErr sr) as [[]|]; try (intros [= _ <-]; congruence);
    destruct (ctxDone w4) as [b w5] eqn:Hc; pose proof (Hskip _ _ _ Hc) as E;
    destruct b; intros [= _ <-]; congruence.
Qed.

Lemma cleanWorkers_tasks t fuel ws P D l w r w' :
  clean_workers (defaultEngine fuel) ws P D l w = Some (r, w') →
  tasks t (db w') = tasks t (db w).
Proof.
  revert w. induction l as [|x rest IH]; intros w; simpl.
  { by intros [= _ <-]. }
  destruct (clean_worker (defaultEngine fuel) ws P D x w) as [[f w1]|] eqn:HW; [|done].
  pose proof (cleanWorker_tasks t _ _ _ _ _ _ _ _ HW) as T1.
  destruct f as [|r0].
  - intros Hrun. by rewrite (IH _ Hrun).
  - by intros [= _ <-].
Qed.

(** X2. A sweep neither loses nor duplicates a task: however it ends, and
    whatever the key names are, every task occurs in the lists of the
    keyspace as many times after the sweep as before. *)
Theorem clean_conserves_tasks (fuel : nat) (ws P D : string) (w w' : World)
    (r : goerror) (t : string) :
  default_clean (defaultEngine fuel) ws P D w = Some (r, w') →
  tasks t (db w') = tasks t (db w).
Proof.
  unfold defaultClean.
  destruct (SMembers ws w) as [sm w1] eqn:HS.
  destruct (SMembers_inv _ _ _ _ HS) as (Hd1 & _).
  destruct sm as [l|err].
  - intros Hrun. rewrite <- Hd1. by eapply cleanWorkers_tasks.
  - destruct err; intros [= _ <-]; by rewrite Hd1.
Qed.

(** ** The sweep returns *)

(** Without any assumption on the client: the pass for one worker drains at
    most its own two queues into the two global ones and removes at most
    itself. *)
Lemma cleanWorker_flows_any fuel ws P D x w f w' :
  clean_worker (defaultEngine fuel) ws P D x w = Some (f, w') →
  flows (λ k, k = aq x ∨ k = wq x) (λ k, k = P ∨ k = D) (λ m, m = x) (db w) (db w').
Proof.
  unfold cleanWorker.
  destruct (Get (hb x) w) as [g w1] eqn:HG.
  destruct (Get_inv _ _ _ _ HG) as (Hd1 & _).
  assert (∀ w0 b w5, ctxDone w0 = (b, w5) → db w5 = db w0) as Hskip.
  { intros w0 b w5 Hc. by destruct (ctxDone_inv _ _ _ Hc) as (? & _). }
  destruct g as [v|err]; simpl.
  { destruct (ctxDone w1) as [b w5] eqn:Hc. pose proof (Hskip _ _ _ Hc) as E.
    destruct b; intros [= _ <-]; rewrite E, Hd1; apply flows_refl. }
  destruct err; try (intros [= _ <-]; rewrite Hd1; apply flows_refl).
  simpl.
  destruct (defaultCleanWorkerQueue fuel x (aq x) P w1) as [[r2 w2]|] eqn:HD1; [|done].
  destruct (drain_flows _ _ _ _ _ _ _ HD1) as [F1 _]. rewrite Hd1 in F1.
  assert (flows (λ k, k = aq x ∨ k = wq x) (λ k, k = P ∨ k = D) (λ m, m = x)
            (db w) (db w2)) as Hfl2.
  { eapply flows_mono; [| | |exact F1]; simpl; tauto. }
  destruct r2 as [err|]; [by intros [= _ <-]|].
  destruct (defaultCleanWorkerQueue fuel x (wq x) D w2) as [[r3 w3]|] eqn:HD2; [|done].
  destruct (drain_flows _ _ _ _ _ _ _ HD2) as [F2 _].
  assert (flows (λ k, k = aq x ∨ k = wq x) (λ k, k = P ∨ k = D) (λ m, m = x)
            (db w) (db w3)) as Hfl3.
  { eapply flows_trans; [exact Hfl2|].
    eapply flows_mono; [| | |exact F2]; simpl; tauto. }
  destruct r3 as [err|]; [by intros [= _ <-]|].
  destruct (SRem ws x w3) as [sr w4] eqn:HS.
  destruct (SRem_inv _ _ _ _ _ HS) as (_ & _ & _ & F4 & _).
  assert (flows (λ k, k = aq x ∨ k = wq x) (λ k, k = P ∨ k = D) (λ m, m = x)
            (db w) (db w4)) as Hfl4.
  { eapply flows_trans; [exact Hfl3|].
    eapply flows_mono; [| | |exact F4]; simpl; tauto. }
  destruct (replyErr sr) as [[]|]; try (by intros [= _ <-]);
    destruct (ctxDone w4) as [b w5] eqn:Hc; pose proof (Hskip _ _ _ Hc) as E;
    destruct b; intros [= _ <-]; by rewrite E.
Qed.

Lemma flows_shorter srcs dsts rem d d' k :
  flows srcs dsts rem d d' → ¬ dsts k →
  (length (queue d' k) ≤ length (queue d k))%nat.
Proof.
  intros (_ & _ & _ & _ & A5) Hk. destruct (A5 k Hk) as [suf ->].
  rewrite length_app. lia.
Qed.

Lemma cleanWorker_returns fuel ws P D x w :
  aq x ≠ P → wq x ≠ P → wq x ≠ D →
  length (queue (db w) (aq x)) < fuel →
  length (queue (db w) (wq x)) < fuel →
  ∃ f w', clean_worker (defaultEngine fuel) ws P D x w = Some (f, w').
Proof.
  intros HaP HwP HwD La Lw. unfold cleanWorker.
  destruct (Get (hb x) w) as [g w1] eqn:HG.
  destruct (Get_inv _ _ _ _ HG) as (Hd1 & _).
  destruct g as [v|err]; simpl.
  { destruct (ctxDone w1) as [[] w5]; eauto. }
  destruct err; eauto. simpl.
  destruct (drain_returns fuel x (aq x) P w1 HaP) as (r2 & w2 & HD1).
  { by rewrite Hd1. }
  rewrite HD1. destruct r2 as [err|]; [eauto|].
  destruct (drain_flows _ _ _ _ _ _ _ HD1) as [F1 _].
  destruct (drain_returns fuel x (wq x) D w2 HwD) as (r3 & w3 & HD2).
  { pose proof (flows_shorter _ _ _ _ _ (wq x) F1 HwP) as Hle.
    rewrite Hd1 in Hle. lia. }
  rewrite HD2. destruct r3 as [err|]; [eauto|].
  destruct (SRem ws x w3) as [sr w4].
  destruct (replyErr sr) as [[]|]; eauto; destruct (ctxDone w4) as [[] w5]; eauto.
Qed.

Lemma cleanWorkers_returns fuel ws P D l w :
  well_named aq wq P D →
  (∀ x, x ∈ l → length (queue (db w) (aq x)) < fuel
                ∧ length (queue (db w) (wq x)) < fuel) →
  ∃ r w', clean_workers (defaultEngine fuel) ws P D l w = Some (r, w').
Proof.
  intros Hnm. pose proof Hnm as (_ & _ & _ & Hg).
  revert w. induction l as [|x rest IH]; intros w Hlen; simpl; [eauto|].
  destruct (Hg x) as (HaP & HaD & HwP & HwD).
  destruct (Hlen x) as [La Lw]; [left|].
  destruct (cleanWorker_returns fuel ws P D x w) as (f & w1 & HW); try done.
  rewrite HW. destruct f as [|r0]; [|eauto].
  apply IH. intros y Hy. destruct (Hlen y) as [La' Lw']; [by right|].
  pose proof (cleanWorker_flows_any _ _ _ _ _ _ _ _ HW) as Hf.
  destruct (Hg y) as (? & ? & ? & ?).
  split.
  - pose proof (flows_shorter _ _ _ _ _ (aq y) Hf) as Hle.
    assert (length (queue (db w1) (aq y)) ≤ length (queue (db w) (aq y)))%nat; [|lia].
    apply Hle. by intros [|].
  - pose proof (flows_shorter _ _ _ _ _ (wq y) Hf) as Hle.
    assert (length (queue (db w1) (wq y)) ≤ length (queue (db w) (wq y)))%nat; [|lia].
    apply Hle. by intros [|].
Qed.

(** X3. With well-separated queue names a sweep returns, whatever the
    client and the context do, as soon as each drain is allowed more passes
    than the longest queue of a worker of the set. *)
Theorem clean_returns (fuel : nat) (ws P D : string) (w : World) :
  well_named aq wq P D →
  (∀ x, x ∈ members (db w) ws →
        length (queue (db w) (aq x)) < fuel ∧ length (queue (db w) (wq x)) < fuel) →
  ∃ r w', default_clean (defaultEngine fuel) ws P D w = Some (r, w').
Proof.
  intros Hnm Hlen. unfold defaultClean.
  destruct (SMembers ws w) as [sm w1] eqn:HS.
  destruct (SMembers_inv _ _ _ _ HS) as (Hd1 & _ & _ & _ & Hl & _).
  destruct sm as [l|err]; [|destruct err; eauto].
  apply cleanWorkers_returns; [done|].
  intros x Hx. rewrite Hd1. apply Hlen. by apply (Hl l eq_refl).
Qed.

(** ** A context that is already done *)

(** X4. Called with a context that is already done, a sweep returns after
    SMEMBERS and at most one GET: it moves no task and removes no worker,
    and the keyspace is as it was. *)
Theorem clean_cancelled_changes_nothing (fuel : nat) (ws P D : string) (w : World) :
  ctx w = Some 0 →
  ∃ r w', default_clean (defaultEngine (S fuel)) ws P D w = Some (r, w')
    ∧ db w' = db w
    ∧ ∃ new, trace w' = new ++ trace w ∧ Forall is_read new ∧ (length new ≤ 2)%nat.
Proof.
  intros Hctx. unfold defaultClean.
  destruct (SMembers ws w) as [sm w1] eqn:HS.
  destruct (SMembers_inv _ _ _ _ HS) as (Hd1 & _ & Hc1 & Ht1 & _).
  assert (Forall is_read [(SMEMBERS ws, replyErr sm)]) as Hr1.
  { by apply Forall_singleton. }
  assert (∀ r : goerror, ∃ r' w', Some (r, w1) = Some (r', w') ∧ db w' = db w
    ∧ ∃ new, trace w' = new ++ trace w ∧ Forall is_read new ∧ (length new ≤ 2)%nat) as Hstop.
  { intros r. exists r, w1. split_and!; [done..|].
    exists [(SMEMBERS ws, replyErr sm)]. split_and!; [by rewrite Ht1|done|simpl; lia]. }
  destruct sm as [l|err]; [|destruct err; apply Hstop].
  destruct l as [|x rest]; [apply Hstop|].
  simpl. unfold cleanWorker.
  destruct (Get (hb x) w1) as [g w2] eqn:HG.
  destruct (Get_inv _ _ _ _ HG) as (Hd2 & _ & Hc2 & Ht2 & _).
  assert (Forall is_read [(GET (hb x), replyErr g); (SMEMBERS ws, None)]) as Hr2.
  { by repeat constructor. }
  assert (ctx w2 = Some 0) as Hctx2 by congruence.
  assert (ctxDone w2 = (true, w2)) as Hdone.
  { unfold ctxDone. by rewrite Hctx2. }
  assert (∀ r : goerror, ∃ r' w', Some (r, w2) = Some (r', w') ∧ db w' = db w
    ∧ ∃ new, trace w' = new ++ trace w ∧ Forall is_read new ∧ (length new ≤ 2)%nat) as Hstop2.
  { intros r. exists r, w2. split_and!; [done|congruence|].
    exists [(GET (hb x), replyErr g); (SMEMBERS ws, None)].
    split_and!; [by rewrite Ht2, Ht1|done|simpl; lia]. }
  destruct g as [v|err]; simpl.
  { rewrite Hdone. apply Hstop2. }
  destruct err; try apply Hstop2.
  unfold cleanWorkerQueueIter. rewrite Hdone. apply Hstop2.
Qed.

(** ** An empty worker set *)

(** X5. When the key of the worker set is absent, or holds a set without
    members, and the client answers, a sweep returns [nil] after the single
    SMEMBERS, even if the context is already done; the keyspace is as it
    was. *)
Theorem clean_empty_set_is_noop (e : engine) (ws P D : string) (w : World) :
  answers w → is_set (db w) ws → members (db w) ws = ∅ →
  ∃ w', default_clean e ws P D w = Some (None, w')
    ∧ db w' = db w
    ∧ trace w' = (SMEMBERS ws, None) :: trace w.
Proof.
  intros Ha Hset Hempty. unfold defaultClean.
  destruct (SMembers ws w) as [sm w1] eqn:HS.
  destruct (SMembers_inv _ _ _ _ HS) as (Hd1 & _ & _ & Ht1 & Hl & _).
  assert (sm = Ok []) as ->.
  { revert HS. unfold SMembers. intros Hcall.
    pose proof (call_cases (SMEMBERS ws) (exec_smembers ws) w) as Hc.
    rewrite Hcall in Hc. simpl in Hc.
    destruct Hc as [(e' & Hh & _)|(_ & -> & _)]; [by destruct (Ha e')|].
    revert Hempty. unfold members, exec_smembers.
    destruct (db w !! ws) as [v|] eqn:Hws; [|done].
    destruct (Hset v Hws) as [s ->]. simpl. intros ->. by rewrite elements_empty. }
  simpl. eauto.
Qed.

(** ** What a sweep never does *)

(** X6. Whatever the key names are and however the sweep ends, under a
    truthful client: no key starts or stops holding a string and no string
    changes (heartbeats are only read), no set gains a member, and a member
    that a set has lost was a worker of the snapshot without a heartbeat. *)
Theorem clean_only_removes_dead_workers (fuel : nat) (ws P D : string)
    (w w' : World) (r : goerror) :
  truthful w →
  default_clean (defaultEngine fuel) ws P D w = Some (r, w') →
  (∀ k v, db w' !! k = Some (VStr v) ↔ db w !! k = Some (VStr v))
  ∧ (∀ k m, m ∈ members (db w') k → m ∈ members (db w) k)
  ∧ (∀ k m, m ∈ members (db w) k → m ∉ members (db w') k →
       m ∈ members (db w) ws ∧ notalive hb (db w) m).
Proof.
  intros Htr. unfold defaultClean.
  destruct (SMembers ws w) as [sm w1] eqn:HS.
  destruct (SMembers_inv _ _ _ _ HS) as (Hd1 & Hs1 & _ & _ & Hl & _).
  pose proof (truthful_tail _ _ Hs1 Htr) as Htr1.
  destruct sm as [l|err].
  2:{ destruct err; intros [= _ <-]; rewrite Hd1; by split_and!. }
  intros Hrun.
  destruct (cleanWorkers_flows _ _ _ _ _ _ _ _ _ _ _ Hrun Htr1) as [_ Hf].
  rewrite Hd1 in Hf. destruct Hf as (A1 & A2 & A3 & _).
  split_and!; [done|done|].
  intros k m Hin Hout.
  destruct (decide (m ∈ l)) as [Hml|Hml].
  2:{ destruct Hout. apply A3; [|done]. by intros [? _]. }
  split; [by apply (Hl l eq_refl)|].
  destruct (db w !! hb m) as [[v| |]|] eqn:Hm; try (intros v'; congruence).
  destruct Hout. apply A3; [|done]. intros [_ Hn]. by apply (Hn v).
Qed.

End CleanerMore.


(** * Further properties of the record store *)

Lemma call_unlogged_cases {A : Type}
    (exec : gmap string value → reply A * gmap string value) w :
  script (call_unlogged exec w).2 = tail (script w)
  ∧ ((∃ e, head (script w) = Some (Some e) ∧ (call_unlogged exec w).1 = Err e
           ∧ db (call_unlogged exec w).2 = db w)
     ∨ (answers w ∧ (call_unlogged exec w).1 = (exec (db w)).1
        ∧ db (call_unlogged exec w).2 = (exec (db w)).2)).
Proof.
  unfold call_unlogged, answers. destruct (script w) as [|[e|] s]; simpl.
  - split; [done|]. right. by split_and!.
  - split; [done|]. left. by exists e.
  - split; [done|]. right. split_and!; [|done..]. by intros e.
Qed.

Lemma answers_truthful_tail w w' :
  faultless w → script w' = tail (script w) → answers w ∧ faultless w'.
Proof.
  intros Hf Hs. split; [|by eapply faultless_tail].
  intros e Hh. unfold faultless in Hf. destruct (script w) as [|o l]; [done|].
  simpl in Hh. apply Forall_cons in Hf as [-> _]. done.
Qed.

Lemma Del_inv k w r w1 :
  Del k w = (r, w1) →
  script w1 = tail (script w)
  ∧ ((∃ e, head (script w) = Some (Some e) ∧ r = Err e ∧ db w1 = db w)
     ∨ (answers w ∧ replyErr r = None ∧ db w1 = delete k (db w))).
Proof.
  unfold Del. intros Hcall.
  pose proof (call_cases (DEL k) (exec_del k) w) as Hc.
  pose proof (call_script (DEL k) (exec_del k) w) as Hs.
  rewrite Hcall in Hc, Hs. simpl in *. split; [done|].
  destruct Hc as [(e & Hh & -> & Hd)|(Ha & -> & ->)]; [left; eauto|].
  right. split; [exact Ha|]. unfold exec_del.
  destruct (db w !! k) as [v|] eqn:Hk; simpl; [done|]. by rewrite delete_id.
Qed.

Lemma instance_key_inj i j : getInstanceKey i = getInstanceKey j → i = j.
Proof. unfold getInstanceKey. intros E. simpl in E. by simplify_eq. Qed.

Lemma binding_key_inj i j : getBindingKey i = getBindingKey j → i = j.
Proof. unfold getBindingKey. intros E. simpl in E. by simplify_eq. Qed.

Lemma instance_binding_keys i j : getInstanceKey i ≠ getBindingKey j.
Proof. unfold getInstanceKey, getBindingKey. simpl. discriminate. Qed.

Section StoreMore.

Context `{ServiceJSON}.

Lemma Set_inv k v w r w1 :
  Set_ k v w = (r, w1) →
  script w1 = tail (script w)
  ∧ ((∃ e, head (script w) = Some (Some e) ∧ r = Err e ∧ db w1 = db w)
     ∨ (answers w ∧ replyErr r = None ∧ db w1 = <[k := VStr v]> (db w))).
Proof.
  unfold Set_. intros Hcall.
  destruct (call_unlogged_cases (exec_set k v) w) as [Hs Hc].
  rewrite Hcall in Hs, Hc. simpl in *. split; [done|].
  destruct Hc as [(e & Hh & -> & Hd)|(Ha & -> & ->)]; [left; eauto|by right].
Qed.

(** X7. A write touches the one record it names: [WriteInstance] leaves
    every binding and every other instance as stored, [WriteBinding] every
    instance and every other binding.  A write that returns [nil] has put
    the encoding of the record under its key, and when the record cannot be
    encoded the client is not called at all. *)
Theorem write_touches_one_record (s : store) (instance : Instance)
    (binding : Binding) (w : World) :
  ((∀ b, db (WriteInstance s instance w).2 !! getBindingKey b
         = db w !! getBindingKey b)
   ∧ (∀ i, i ≠ Instance_InstanceID instance →
           db (WriteInstance s instance w).2 !! getInstanceKey i
           = db w !! getInstanceKey i)
   ∧ ((WriteInstance s instance w).1 = None →
      db (WriteInstance s instance w).2
      = <[getInstanceKey (Instance_InstanceID instance)
            := VStr (Instance_ToJSON instance (codec s)).1]> (db w))
   ∧ ((Instance_ToJSON instance (codec s)).2 ≠ None →
      WriteInstance s instance w = ((Instance_ToJSON instance (codec s)).2, w)))
  ∧ ((∀ i, db (WriteBinding s binding w).2 !! getInstanceKey i
           = db w !! getInstanceKey i)
     ∧ (∀ b, b ≠ Binding_BindingID binding →
             db (WriteBinding s binding w).2 !! getBindingKey b
             = db w !! getBindingKey b)
     ∧ ((WriteBinding s binding w).1 = None →
        db (WriteBinding s binding w).2
        = <[getBindingKey (Binding_BindingID binding)
              := VStr (Binding_ToJSON binding (codec s)).1]> (db w))
     ∧ ((Binding_ToJSON binding (codec s)).2 ≠ None →
        WriteBinding s binding w = ((Binding_ToJSON binding (codec s)).2, w))).
Proof.
  split.
  - unfold WriteInstance.
    destruct (Instance_ToJSON instance (codec s)) as [json [err|]]; simpl;
      [by split_and!|].
    destruct (Set_ (getInstanceKey (Instance_InstanceID instance)) json w)
      as [r w1] eqn:HS. simpl.
    destruct (Set_inv _ _ _ _ _ HS) as (_ & [(e & _ & -> & Hd)|(_ & Hr & Hd)]);
      rewrite Hd; split_and!; try done.
    + intros b. rewrite lookup_insert_ne; [done|]. apply instance_binding_keys.
    + intros i Hi. rewrite lookup_insert_ne; [done|].
      intros E. by apply instance_key_inj in E.
  - unfold WriteBinding.
    destruct (Binding_ToJSON binding (codec s)) as [json [err|]]; simpl;
      [by split_and!|].
    destruct (Set_ (getBindingKey (Binding_BindingID binding)) json w)
      as [r w1] eqn:HS. simpl.
    destruct (Set_inv _ _ _ _ _ HS) as (_ & [(e & _ & -> & Hd)|(_ & Hr & Hd)]);
      rewrite Hd; split_and!; try done.
    + intros i. rewrite lookup_insert_ne; [done|].
      intros E. symmetry in E. by apply instance_binding_keys in E.
    + intros b Hb. rewrite lookup_insert_ne; [done|].
      intros E. by apply binding_key_inj in E.
Qed.

(** X8. Round trip of an instance.  With a client that answers, writing an
    instance that encodes to [json] and reading its ID back returns
    [found = true] and no error, with the record decoded from [json] on the
    second pass and its [Service] and [Plan] set from the catalog, provided
    [json] decodes and the catalog knows its service and plan. *)
Theorem write_then_get_instance (s : store) (instance i0 i1 : Instance)
    (json : string) (svc : Service) (plan : Plan) (w : World) :
  faultless w →
  Instance_ToJSON instance (codec s) = (json, None) →
  NewInstanceFromJSON json None None None (codec s) = (i0, None) →
  GetService (catalog s) (Instance_ServiceID i0) = Some svc →
  GetPlan svc (Instance_PlanID i0) = Some plan →
  NewInstanceFromJSON json
    (Some (GetEmptyProvisioningParameters (GetServiceManager svc)))
    (Some (GetEmptyUpdatingParameters (GetServiceManager svc)))
    (Some (GetEmptyInstanceDetails (GetServiceManager svc))) (codec s) = (i1, None) →
  (WriteInstance s instance w).1 = None
  ∧ (GetInstance s (Instance_InstanceID instance) (WriteInstance s instance w).2).1
    = (Instance_setPlan plan (Instance_setService svc i1), true, None)
  ∧ db (GetInstance s (Instance_InstanceID instance) (WriteInstance s instance w).2).2
    = <[getInstanceKey (Instance_InstanceID instance) := VStr json]> (db w).
Proof.
  intros Hf Hjson Hdec Hsvc Hplan Hdec2. unfold WriteInstance. rewrite Hjson.
  destruct (Set_ (getInstanceKey (Instance_InstanceID instance)) json w)
    as [r w1] eqn:HS. simpl.
  destruct (Set_inv _ _ _ _ _ HS) as (Hs1 & Hc).
  destruct (answers_truthful_tail _ _ Hf Hs1) as [Ha Hf1].
  destruct Hc as [(e & Hh & _)|(_ & Hr & Hd)]; [by destruct (Ha e)|].
  destruct (answers_truthful_tail w1 (mkWorld (db w1) (tail (script w1)) (ctx w1) (trace w1))
              Hf1 eq_refl) as [Ha1 _].
  destruct (Get_stored (getInstanceKey (Instance_InstanceID instance)) json w1 Ha1)
    as (w2 & HG & Hd2 & _).
  { rewrite Hd. apply lookup_insert_eq. }
  unfold GetInstance. rewrite HG, Hdec, Hsvc, Hplan, Hdec2. simpl.
  split_and!; [done|done|congruence].
Qed.

(** X9. Round trip of a binding, as for instances; a binding needs its
    service in the catalog, not a plan. *)
Theorem write_then_get_binding (s : store) (binding b0 b1 : Binding)
    (json : string) (svc : Service) (w : World) :
  faultless w →
  Binding_ToJSON binding (codec s) = (json, None) →
  NewBindingFromJSON json None None (codec s) = (b0, None) →
  GetService (catalog s) (Binding_ServiceID b0) = Some svc →
  NewBindingFromJSON json
    (Some (GetEmptyBindingParameters (GetServiceManager svc)))
    (Some (GetEmptyBindingDetails (GetServiceManager svc))) (codec s) = (b1, None) →
  (WriteBinding s binding w).1 = None
  ∧ (GetBinding s (Binding_BindingID binding) (WriteBinding s binding w).2).1
    = (b1, true, None)
  ∧ db (GetBinding s (Binding_BindingID binding) (WriteBinding s binding w).2).2
    = <[getBindingKey (Binding_BindingID binding) := VStr json]> (db w).
Proof.
  intros Hf Hjson Hdec Hsvc Hdec2. unfold WriteBinding. rewrite Hjson.
  destruct (Set_ (getBindingKey (Binding_BindingID binding)) json w)
    as [r w1] eqn:HS. simpl.
  destruct (Set_inv _ _ _ _ _ HS) as (Hs1 & Hc).
  destruct (answers_truthful_tail _ _ Hf Hs1) as [Ha Hf1].
  destruct Hc as [(e & Hh & _)|(_ & Hr & Hd)]; [by destruct (Ha e)|].
  destruct (answers_truthful_tail w1 (mkWorld (db w1) (tail (script w1)) (ctx w1) (trace w1))
              Hf1 eq_refl) as [Ha1 _].
  destruct (Get_stored (getBindingKey (Binding_BindingID binding)) json w1 Ha1)
    as (w2 & HG & Hd2 & _).
  { rewrite Hd. apply lookup_insert_eq. }
  unfold GetBinding. rewrite HG, Hdec, Hsvc, Hdec2. simpl.
  split_and!; [done|done|congruence].
Qed.

End StoreMore.

Section StoreReads.

Context `{ServicePkg}.

Lemma delete_stored key v w :
  faultless w → db w !! key = Some (VStr v) →
  ∃ w1 w2, Get key w = (Ok v, w1) ∧ Del key w1 = (Ok 1, w2)
    ∧ db w2 = delete key (db w) ∧ faultless w2.
Proof.
  intros Hf Hk.
  destruct (answers_truthful_tail w (mkWorld (db w) (tail (script w)) (ctx w) (trace w))
              Hf eq_refl) as [Ha _].
  destruct (Get_stored key v w Ha Hk) as (w1 & HG & Hd1 & _).
  destruct (Get_inv _ _ _ _ HG) as (_ & Hs1 & _).
  destruct (answers_truthful_tail _ _ Hf Hs1) as [_ Hf1].
  destruct (Del key w1) as [r w2] eqn:HD.
  destruct (Del_inv _ _ _ _ HD) as (Hs2 & Hc).
  destruct (answers_truthful_tail _ _ Hf1 Hs2) as [Ha1 Hf2].
  exists w1, w2. split; [done|].
  assert (r = Ok 1) as ->.
  { revert HD. unfold Del. intros Hcall.
    pose proof (call_cases (DEL key) (exec_del key) w1) as Hcs.
    rewrite Hcall in Hcs. simpl in Hcs.
    destruct Hcs as [(e & Hh & _)|(_ & -> & _)]; [by destruct (Ha1 e)|].
    unfold exec_del. by rewrite Hd1, Hk. }
  destruct Hc as [(e & Hh & _)|(_ & _ & Hd)]; [by destruct (Ha1 e)|].
  split_and!; [done| |done]. by rewrite Hd, Hd1.
Qed.

(** X10. Deleting a stored instance, with a client that answers: the call
    returns [true] and [nil] and the key is gone while every other key is as
    it was; reading the ID afterwards finds nothing and deleting it again
    returns [false], both without error.  Independently, the same for a
    stored binding. *)
Theorem delete_removes_the_record (s : store) (w : World) :
  faultless w →
  (∀ iid iv : string,
     db w !! getInstanceKey iid = Some (VStr iv) →
     (DeleteInstance iid w).1 = (true, None)
     ∧ db (DeleteInstance iid w).2 = delete (getInstanceKey iid) (db w)
     ∧ (GetInstance s iid (DeleteInstance iid w).2).1 = (zeroInstance, false, None)
     ∧ (DeleteInstance iid (DeleteInstance iid w).2).1 = (false, None))
  ∧ (∀ bid bv : string,
       db w !! getBindingKey bid = Some (VStr bv) →
       (DeleteBinding bid w).1 = (true, None)
       ∧ db (DeleteBinding bid w).2 = delete (getBindingKey bid) (db w)
       ∧ (GetBinding s bid (DeleteBinding bid w).2).1 = (zeroBinding, false, None)
       ∧ (DeleteBinding bid (DeleteBinding bid w).2).1 = (false, None)).
Proof.
  intros Hf. split.
  - intros iid iv Hi.
    destruct (delete_stored _ _ _ Hf Hi) as (i1 & i2 & HGi & HDi & Hdi & Hfi).
    destruct (answers_truthful_tail i2
                (mkWorld (db i2) (tail (script i2)) (ctx i2) (trace i2))
                Hfi eq_refl) as [Hai _].
    destruct (Get_absent (getInstanceKey iid) i2 Hai) as (i3 & HGi3 & _).
    { rewrite Hdi. apply lookup_delete_eq. }
    unfold DeleteInstance, GetInstance.
    rewrite HGi. simpl. rewrite HDi. simpl. rewrite HGi3. simpl. by split_and!.
  - intros bid bv Hb.
    destruct (delete_stored _ _ _ Hf Hb) as (b1 & b2 & HGb & HDb & Hdb & Hfb).
    destruct (answers_truthful_tail b2
                (mkWorld (db b2) (tail (script b2)) (ctx b2) (trace b2))
                Hfb eq_refl) as [Hab _].
    destruct (Get_absent (getBindingKey bid) b2 Hab) as (b3 & HGb3 & _).
    { rewrite Hdb. apply lookup_delete_eq. }
    unfold DeleteBinding, GetBinding.
    rewrite HGb. simpl. rewrite HDb. simpl. rewrite HGb3. simpl. by split_and!.
Qed.

(** X11. What the result of a delete says, whatever the client replies:
    [true] comes with a [nil] error, the key held a value and is gone;
    [false] with a [nil] error means that the keyspace is as it was; an
    error always comes with [false]; and in every case the keys other than
    that of the record are as they were. *)
Theorem delete_reports_what_it_did (id : string) (w : World) :
  ((DeleteInstance id w).1.1 = true →
     (DeleteInstance id w).1.2 = None
     ∧ (∃ v, db w !! getInstanceKey id = Some (VStr v))
     ∧ db (DeleteInstance id w).2 = delete (getInstanceKey id) (db w))
  ∧ ((DeleteInstance id w).1 = (false, None) → db (DeleteInstance id w).2 = db w)
  ∧ ((DeleteInstance id w).1.2 ≠ None → (DeleteInstance id w).1.1 = false)
  ∧ (∀ k, k ≠ getInstanceKey id → db (DeleteInstance id w).2 !! k = db w !! k)
  ∧ ((DeleteBinding id w).1.1 = true →
       (DeleteBinding id w).1.2 = None
       ∧ (∃ v, db w !! getBindingKey id = Some (VStr v))
       ∧ db (DeleteBinding id w).2 = delete (getBindingKey id) (db w))
  ∧ ((DeleteBinding id w).1 = (false, None) → db (DeleteBinding id w).2 = db w)
  ∧ ((DeleteBinding id w).1.2 ≠ None → (DeleteBinding id w).1.1 = false)
  ∧ (∀ k, k ≠ getBindingKey id → db (DeleteBinding id w).2 !! k = db w !! k).
Proof.
  assert (∀ key,
    let res := (let (strCmd, w1) := Get key w in
                match replyErr strCmd with
                | Some RedisNil => ((false, None), w1)
                | Some err => ((false, Some err), w1)
                | None =>
                    let (intCmd, w2) := Del key w1 in
                    match replyErr intCmd with
                    | Some err => ((false, Some err), w2)
                    | None => ((true, None), w2)
                    end
                end) in
    (res.1.1 = true →
       res.1.2 = None ∧ (∃ v, db w !! key = Some (VStr v))
       ∧ db res.2 = delete key (db w))
    ∧ (res.1 = (false, None) → db res.2 = db w)
    ∧ (res.1.2 ≠ None → res.1.1 = false)
    ∧ (∀ k, k ≠ key → db res.2 !! k = db w !! k)) as Hgen.
  { intros key. simpl.
    destruct (Get key w) as [g w1] eqn:HG.
    destruct (Get_inv _ _ _ _ HG) as (Hd1 & _ & _ & _ & Hok & _).
    destruct g as [v|err]; simpl.
    2:{ destruct err; simpl; split_and!; try done; intros; by rewrite Hd1. }
    destruct (Del key w1) as [r w2] eqn:HD.
    destruct (Del_inv _ _ _ _ HD) as (_ & [(e & _ & -> & Hd)|(_ & Hr & Hd)]); simpl.
    - split_and!; [done|done|done|]. intros k _. by rewrite Hd, Hd1.
    - rewrite Hr. simpl. split_and!; [|done|done|].
      + intros _. split_and!; [done|eauto|congruence].
      + intros k Hk. by rewrite Hd, Hd1, lookup_delete_ne. }
  destruct (Hgen (getInstanceKey id)) as (I1 & I2 & I3 & I4).
  destruct (Hgen (getBindingKey id)) as (B1 & B2 & B3 & B4).
  by split_and!.
Qed.

(** X12. Reads never write, for any client; and [found = true] comes with
    a [nil] error, a stored value, and a service (for instances, also a
    plan) that the catalog resolved for that value. *)
Theorem get_is_read_only (s : store) (id : string) (w : World) :
  db (GetInstance s id w).2 = db w
  ∧ db (GetBinding s id w).2 = db w
  ∧ ((GetInstance s id w).1.1.2 = true →
       (GetInstance s id w).1.2 = None
       ∧ ∃ bytes svc plan,
           db w !! getInstanceKey id = Some (VStr bytes)
           ∧ GetService (catalog s)
               (Instance_ServiceID (NewInstanceFromJSON bytes None None None (codec s)).1)
             = Some svc
           ∧ GetPlan svc
               (Instance_PlanID (NewInstanceFromJSON bytes None None None (codec s)).1)
             = Some plan)
  ∧ ((GetBinding s id w).1.1.2 = true →
       (GetBinding s id w).1.2 = None
       ∧ ∃ bytes svc,
           db w !! getBindingKey id = Some (VStr bytes)
           ∧ GetService (catalog s)
               (Binding_ServiceID (NewBindingFromJSON bytes None None (codec s)).1)
             = Some svc).
Proof.
  unfold GetInstance, GetBinding.
  destruct (Get (getInstanceKey id) w) as [gi wi] eqn:HGi.
  destruct (Get_inv _ _ _ _ HGi) as (Hdi & _ & _ & _ & Hoki & _).
  destruct (Get (getBindingKey id) w) as [gb wb] eqn:HGb.
  destruct (Get_inv _ _ _ _ HGb) as (Hdb & _ & _ & _ & Hokb & _).
  split_and!.
  - destruct gi as [bytes|[]]; simpl; try done.
    destruct (NewInstanceFromJSON bytes None None None (codec s)) as [i0 [e0|]]; [done|].
    destruct (GetService (catalog s) (Instance_ServiceID i0)) as [svc|]; [|done].
    destruct (GetPlan svc (Instance_PlanID i0)) as [plan|]; [|done].
    by destruct (NewInstanceFromJSON bytes _ _ _ (codec s)) as [i1 e1].
  - destruct gb as [bytes|[]]; simpl; try done.
    destruct (NewBindingFromJSON bytes None None (codec s)) as [b0 [e0|]]; [done|].
    destruct (GetService (catalog s) (Binding_ServiceID b0)) as [svc|]; [|done].
    by destruct (NewBindingFromJSON bytes _ _ (codec s)) as [b1 e1].
  - destruct gi as [bytes|[]]; simpl; try done.
    destruct (NewInstanceFromJSON bytes None None None (codec s)) as [i0 [e0|]] eqn:E0;
      [done|].
    destruct (GetService (catalog s) (Instance_ServiceID i0)) as [svc|] eqn:Es; [|done].
    destruct (GetPlan svc (Instance_PlanID i0)) as [plan|] eqn:Ep; [|done].
    destruct (NewInstanceFromJSON bytes (Some _) _ _ (codec s)) as [i1 [e1|]]; simpl;
      [done|].
    intros _. split; [done|]. exists bytes, svc, plan. split_and!; rewrite ?E0; simpl; auto.
  - destruct gb as [bytes|[]]; simpl; try done.
    destruct (NewBindingFromJSON bytes None None (codec s)) as [b0 [e0|]] eqn:E0; [done|].
    destruct (GetService (catalog s) (Binding_ServiceID b0)) as [svc|] eqn:Es; [|done].
    destruct (NewBindingFromJSON bytes (Some _) _ (codec s)) as [b1 [e1|]]; simpl;
      [done|].
    intros _. split; [done|]. exists bytes, svc. split_and!; rewrite ?E0; simpl; auto.
Qed.

End StoreReads.


(** * The further properties on the scenario *)

Lemma drainQueue_conserves_witness :
  defaultCleanWorkerQueue 3 "w1" (ex_aq "w1") "pending" ex_drain_fault
    = Some (Some (Errorf ("error cleaning up after dead worker " +:+ dquote +:+ "w1"
                          +:+ dquote +:+ " queue " +:+ dquote +:+ ex_aq "w1" +:+ dquote
                          +:+ ": " +:+ "i/o timeout")),
            world_of (defaultCleanWorkerQueue 3 "w1" (ex_aq "w1") "pending" ex_drain_fault)
              ex_drain_fault)
  ∧ queue (db (world_of (defaultCleanWorkerQueue 3 "w1" (ex_aq "w1") "pending"
                           ex_drain_fault) ex_drain_fault)) (ex_aq "w1")
    ++ queue (db (world_of (defaultCleanWorkerQueue 3 "w1" (ex_aq "w1") "pending"
                              ex_drain_fault) ex_drain_fault)) "pending"
    = queue (db ex_drain_fault) (ex_aq "w1") ++ queue (db ex_drain_fault) "pending"
  ∧ (length (queue (db (world_of (defaultCleanWorkerQueue 3 "w1" (ex_aq "w1") "pending"
                                    ex_drain_fault) ex_drain_fault)) (ex_aq "w1"))
     ≤ length (queue (db ex_drain_fault) (ex_aq "w1")))%nat
  ∧ ∀ k, k ≠ ex_aq "w1" → k ≠ "pending" →
      db (world_of (defaultCleanWorkerQueue 3 "w1" (ex_aq "w1") "pending"
                      ex_drain_fault) ex_drain_fault) !! k
      = db ex_drain_fault !! k.
Proof.
  assert (defaultCleanWorkerQueue 3 "w1" (ex_aq "w1") "pending" ex_drain_fault
    = Some (Some (Errorf ("error cleaning up after dead worker " +:+ dquote +:+ "w1"
                          +:+ dquote +:+ " queue " +:+ dquote +:+ ex_aq "w1" +:+ dquote
                          +:+ ": " +:+ "i/o timeout")),
            world_of (defaultCleanWorkerQueue 3 "w1" (ex_aq "w1") "pending" ex_drain_fault)
              ex_drain_fault)) as Hrun.
  { vm_compute. reflexivity. }
  split; [exact Hrun|].
  eapply (drainQueue_conserves 3 "w1" (ex_aq "w1") "pending" ex_drain_fault).
  - discriminate.
  - exact Hrun.
Defined.

Lemma ex_broken_run :
  ∃ err, defaultClean ex_hb ex_aq ex_wq (defaultEngine 3)
           "workers" "pending" "deferred" ex_broken
         = Some (Some err, ex_broken_swept).
Proof. eexists. vm_compute. reflexivity. Qed.

Lemma clean_conserves_tasks_witness :
  tasks "t1" (db ex_broken_swept) = tasks "t1" (db ex_broken).
Proof.
  destruct ex_broken_run as [err Hrun].
  exact (clean_conserves_tasks ex_hb ex_aq ex_wq 3 "workers" "pending" "deferred"
           ex_broken ex_broken_swept (Some err) "t1" Hrun).
Defined.

Lemma ex_members : members (db ex_world) "workers" = {["w1"; "w2"]}.
Proof. vm_compute. reflexivity. Qed.

Lemma clean_returns_witness :
  ∃ r w', defaultClean ex_hb ex_aq ex_wq (defaultEngine 3)
            "workers" "pending" "deferred" ex_world = Some (r, w').
Proof.
  apply (clean_returns ex_hb ex_aq ex_wq 3 "workers" "pending" "deferred" ex_world).
  - exact ex_well_named.
  - intros x. rewrite ex_members. intros Hx.
    apply elem_of_union in Hx as [Hx|Hx]; apply elem_of_singleton in Hx; subst x;
      vm_compute; lia.
Defined.

Lemma clean_cancelled_changes_nothing_witness :
  ∃ r w', defaultClean ex_hb ex_aq ex_wq (defaultEngine 3)
            "workers" "pending" "deferred" ex_done = Some (r, w')
    ∧ db w' = db ex_done
    ∧ ∃ new, trace w' = new ++ trace ex_done ∧ Forall is_read new ∧ (length new ≤ 2)%nat.
Proof.
  apply (clean_cancelled_changes_nothing ex_hb ex_aq ex_wq 2
           "workers" "pending" "deferred" ex_done).
  reflexivity.
Defined.

Lemma clean_empty_set_is_noop_witness :
  ∃ w', defaultClean ex_hb ex_aq ex_wq (defaultEngine 0)
          "workers" "pending" "deferred" ex_empty = Some (None, w')
    ∧ db w' = db ex_empty
    ∧ trace w' = (SMEMBERS "workers", None) :: trace ex_empty.
Proof.
  apply (clean_empty_set_is_noop ex_hb ex_aq ex_wq (defaultEngine 0)
           "workers" "pending" "deferred" ex_empty).
  - intros e. discriminate.
  - intros v Hv. vm_compute in Hv. discriminate.
  - vm_compute. reflexivity.
Defined.

Lemma clean_only_removes_dead_workers_witness :
  (∀ k v, db ex_swept !! k = Some (VStr v) ↔ db ex_world !! k = Some (VStr v))
  ∧ (∀ k m, m ∈ members (db ex_swept) k → m ∈ members (db ex_world) k)
  ∧ (∀ k m, m ∈ members (db ex_world) k → m ∉ members (db ex_swept) k →
       m ∈ members (db ex_world) "workers" ∧ notalive ex_hb (db ex_world) m).
Proof.
  apply (clean_only_removes_dead_workers ex_hb ex_aq ex_wq 3
           "workers" "pending" "deferred" ex_world ex_swept None).
  - apply Forall_nil_2.
  - exact ex_swept_run.
Defined.

Lemma write_then_get_instance_witness :
  (@WriteInstance ex_shop ex_shop_json ex_shop_store ("svc-a", None, None) ex_records).1
    = None
  ∧ (@GetInstance ex_shop ex_shop_store "svc-a"
       (@WriteInstance ex_shop ex_shop_json ex_shop_store ("svc-a", None, None)
          ex_records).2).1
    = (("svc-a", Some "svc-a", Some "svc-a") : @Instance ex_shop, true, None)
  ∧ db (@GetInstance ex_shop ex_shop_store "svc-a"
          (@WriteInstance ex_shop ex_shop_json ex_shop_store ("svc-a", None, None)
             ex_records).2).2
    = <[getInstanceKey "svc-a" := VStr "svc-a"]> (db ex_records).
Proof.
  apply (@write_then_get_instance ex_shop ex_shop_json ex_shop_store
           ("svc-a", None, None) ("svc-a", None, None) ("svc-a", None, None)
           "svc-a" "svc-a" "svc-a" ex_records).
  - apply Forall_nil_2.
  - reflexivity.
  - reflexivity.
  - vm_compute. reflexivity.
  - reflexivity.
  - reflexivity.
Defined.

Lemma write_then_get_binding_witness :
  (@WriteBinding ex_shop ex_shop_json ex_shop_store "svc-a" ex_records).1 = None
  ∧ (@GetBinding ex_shop ex_shop_store "svc-a"
       (@WriteBinding ex_shop ex_shop_json ex_shop_store "svc-a" ex_records).2).1
    = ("svc-a" : @Binding ex_shop, true, None)
  ∧ db (@GetBinding ex_shop ex_shop_store "svc-a"
          (@WriteBinding ex_shop ex_shop_json ex_shop_store "svc-a" ex_records).2).2
    = <[getBindingKey "svc-a" := VStr "svc-a"]> (db ex_records).
Proof.
  apply (@write_then_get_binding ex_shop ex_shop_json ex_shop_store
           "svc-a" "svc-a" "svc-a" "svc-a" "svc-a" ex_records).
  - apply Forall_nil_2.
  - reflexivity.
  - reflexivity.
  - vm_compute. reflexivity.
  - reflexivity.
Defined.

Lemma delete_removes_the_record_witness :
  ((DeleteInstance "i1" ex_instance_only).1 = (true, None)
   ∧ db (DeleteInstance "i1" ex_instance_only).2
     = delete (getInstanceKey "i1") (db ex_instance_only)
   ∧ (@GetInstance ex_pkg ex_store "i1" (DeleteInstance "i1" ex_instance_only).2).1
     = (@zeroInstance ex_pkg, false, None)
   ∧ (DeleteInstance "i1" (DeleteInstance "i1" ex_instance_only).2).1 = (false, None))
  ∧ ((DeleteBinding "b1" ex_binding_only).1 = (true, None)
     ∧ db (DeleteBinding "b1" ex_binding_only).2
       = delete (getBindingKey "b1") (db ex_binding_only)
     ∧ (@GetBinding ex_pkg ex_store "b1" (DeleteBinding "b1" ex_binding_only).2).1
       = (@zeroBinding ex_pkg, false, None)
     ∧ (DeleteBinding "b1" (DeleteBinding "b1" ex_binding_only).2).1 = (false, None)).
Proof.
  split.
  - apply (proj1 (@delete_removes_the_record ex_pkg ex_store ex_instance_only
                    (Forall_nil_2 _)) "i1" "svc-x").
    vm_compute. reflexivity.
  - apply (proj2 (@delete_removes_the_record ex_pkg ex_store ex_binding_only
                    (Forall_nil_2 _)) "b1" "svc-y").
    vm_compute. reflexivity.
Defined.


(** * What a sweep leaves behind *)

Section CleanerAfter.

Variable getHeartbeatKey : string → string.
Variable getActiveTaskQueueName : string → string.
Variable getWatchedTaskQueueName : string → string.

Local Abbreviation hb := getHeartbeatKey.
Local Abbreviation aq := getActiveTaskQueueName.
Local Abbreviation wq := getWatchedTaskQueueName.
Local Abbreviation default_clean :=
  (defaultClean getHeartbeatKey getActiveTaskQueueName getWatchedTaskQueueName).

(** X13. After a sweep that returned [nil], under a truthful client, every
    worker still in the set has a heartbeat key holding a value: all the
    workers found dead are out of the set. *)
Theorem clean_leaves_only_live_workers (fuel : nat) (ws P D : string)
    (w w' : World) (x : string) :
  truthful w →
  default_clean (defaultEngine fuel) ws P D w = Some (None, w') →
  x ∈ members (db w') ws →
  ∃ v, db w' !! hb x = Some (VStr v).
Proof.
  intros Htr. unfold defaultClean.
  destruct (SMembers ws w) as [sm w0] eqn:HS.
  destruct (SMembers_inv _ _ _ _ HS) as (Hd0 & Hs0 & _ & _ & Hl & Hnn).
  pose proof (truthful_tail _ _ Hs0 Htr) as Htr0.
  destruct sm as [l|err].
  2:{ destruct err; try done. by destruct (Hnn Htr). }
  intros Hrun Hx.
  destruct (cleanWorkers_flows _ _ _ _ _ _ _ _ _ _ _ Hrun Htr0) as [_ (_ & A2 & _)].
  destruct (cleanWorkers_settled _ _ _ _ _ _ _ _ _ _ Htr0 Hrun x) as [?|?]; try done.
  apply (Hl l eq_refl). rewrite <- Hd0. by apply A2.
Qed.

(** X14. With well-separated queue names and a truthful client, a sweep
    only pushes on the two global queues, however it ends: what was pending
    or deferred is still there, in the same order, at the tail. *)
Theorem clean_keeps_queued_tasks (fuel : nat) (ws P D : string)
    (w w' : World) (r : goerror) :
  well_named aq wq P D →
  truthful w →
  default_clean (defaultEngine fuel) ws P D w = Some (r, w') →
  (∃ pre, queue (db w') P = pre ++ queue (db w) P)
  ∧ (∃ pre, queue (db w') D = pre ++ queue (db w) D).
Proof.
  intros (_ & _ & _ & Hg) Htr. unfold defaultClean.
  destruct (SMembers ws w) as [sm w0] eqn:HS.
  destruct (SMembers_inv _ _ _ _ HS) as (Hd0 & Hs0 & _).
  pose proof (truthful_tail _ _ Hs0 Htr) as Htr0.
  destruct sm as [l|err].
  2:{ destruct err; intros [= _ <-]; rewrite Hd0; split; by exists []. }
  intros Hrun.
  destruct (cleanWorkers_flows _ _ _ _ _ _ _ _ _ _ _ Hrun Htr0)
    as [_ (_ & _ & _ & A4 & _)].
  rewrite Hd0 in A4. split; apply A4.
  - intros (z & _ & _ & [E|E]); by destruct (Hg z) as (? & ? & ? & ?).
  - intros (z & _ & _ & [E|E]); by destruct (Hg z) as (? & ? & ? & ?).
Qed.

End CleanerAfter.

Lemma clean_leaves_only_live_workers_witness :
  "w2" ∈ members (db ex_swept) "workers"
  ∧ ∃ v, db ex_swept !! ex_hb "w2" = Some (VStr v).
Proof.
  assert ("w2" ∈ members (db ex_swept) "workers") as Hin.
  { apply (bool_decide_unpack _). vm_compute. exact I. }
  split; [exact Hin|].
  apply (clean_leaves_only_live_workers ex_hb ex_aq ex_wq 3
           "workers" "pending" "deferred" ex_world ex_swept "w2").
  - apply Forall_nil_2.
  - exact ex_swept_run.
  - exact Hin.
Defined.

Lemma clean_keeps_queued_tasks_witness :
  (∃ pre, queue (db ex_broken_swept) "pending" = pre ++ queue (db ex_broken) "pending")
  ∧ (∃ pre, queue (db ex_broken_swept) "deferred" = pre ++ queue (db ex_broken) "deferred").
Proof.
  destruct ex_broken_run as [err Hrun].
  apply (clean_keeps_queued_tasks ex_hb ex_aq ex_wq 3
           "workers" "pending" "deferred" ex_broken ex_broken_swept (Some err)).
  - exact ex_well_named.
  - vm_compute. repeat constructor; discriminate.
  - exact Hrun.
Defined.
